(** * Stimpl: the tree-walking evaluator of [stimpl/runtime.py]

    A shallow embedding of the interpreter state ([State], [EmptyState]) and
    of [evaluate], followed by the properties of the environment, of
    assignment, of division, of the logical connectives and of the loop.

    Python data is kept dynamically typed, as in the source: a datum
    ([PyValue]) travels next to a separate type tag ([Type_]), and the
    operators applied to data are Python's own, exceptions included. *)

From Stdlib Require Import ZArith List String Bool Lia Floats.
Import ListNotations.

Local Open Scope Z_scope.

(** ** The host language: Python data and operators *)

Module Py.

(** The data [evaluate] handles: [None], [int] (unbounded), [float]
    (binary64), [str] and [bool]. *)
Inductive PyValue : Type :=
| PyNone
| PyInt (z : Z)
| PyFloat (f : float)
| PyStr (s : string)
| PyBool (b : bool).

(** The built-in exceptions the operators used by [evaluate] can raise.
    None of them is an interpreter error. *)
Inductive HostError : Type :=
| UnboundLocalError
| TypeError
| OverflowError
| ValueError
| ZeroDivisionError.

Inductive host (A : Type) : Type :=
| Ok (a : A)
| Throw (h : HostError).

Arguments Ok {A} a.
Arguments Throw {A} h.

Definition host_bind {A B : Type} (m : host A) (k : A -> host B) : host B :=
  match m with
  | Ok a => k a
  | Throw h => Throw h
  end.

(** [bool] is a subclass of [int]: in arithmetic and comparisons [True] is 1
    and [False] is 0. *)
Inductive number : Type :=
| NInt (z : Z)
| NFloat (f : float).

Definition as_number (v : PyValue) : option number :=
  match v with
  | PyInt z => Some (NInt z)
  | PyBool b => Some (NInt (Z.b2z b))
  | PyFloat f => Some (NFloat f)
  | PyNone | PyStr _ => None
  end.

(** Truth value testing, as [if v], [while v], [not v], [v and w] use it. *)
Definition truthy (v : PyValue) : bool :=
  match v with
  | PyNone => false
  | PyInt z => negb (z =? 0)
  | PyFloat f => negb (PrimFloat.eqb f PrimFloat.zero)
  | PyStr s => negb (String.eqb s EmptyString)
  | PyBool b => b
  end.

(** [float(z)]: the nearest double, ties to even; [OverflowError] beyond the
    range of doubles. *)
Definition float_of_int (z : Z) : host float :=
  match binary_normalize prec emax z 0 false with
  | S754_infinity _ => Throw OverflowError
  | sf => Ok (SF2Prim sf)
  end.

Definition SF_of_int (z : Z) : spec_float :=
  match z with
  | Z0 => S754_zero false
  | Zpos p => S754_finite false p 0
  | Zneg p => S754_finite true p 0
  end.

(** [x / y] on two ints: the correctly rounded quotient as a double. *)
Definition int_true_divide (x y : Z) : host float :=
  if y =? 0 then Throw ZeroDivisionError
  else match SFdiv prec emax (SF_of_int x) (SF_of_int y) with
       | S754_infinity _ => Throw OverflowError
       | sf => Ok (SF2Prim sf)
       end.

Definition float_true_divide (x y : float) : host float :=
  if PrimFloat.eqb y PrimFloat.zero then Throw ZeroDivisionError
  else Ok (PrimFloat.div x y).

(** [int(f)] on a float: truncation toward zero. *)
Definition int_of_float (f : float) : host Z :=
  match Prim2SF f with
  | S754_nan => Throw ValueError
  | S754_infinity _ => Throw OverflowError
  | S754_zero _ => Ok 0
  | S754_finite s m e =>
      let a := if 0 <=? e then Z.shiftl (Zpos m) e else Z.shiftr (Zpos m) (- e) in
      Ok (if s then - a else a)
  end.

(** The arithmetic of the numeric tower: int with int stays int, anything
    with a float is computed on doubles. *)
Definition arith (on_int : Z -> Z -> Z) (on_float : float -> float -> float)
    (a b : number) : host PyValue :=
  match a, b with
  | NInt x, NInt y => Ok (PyInt (on_int x y))
  | NFloat x, NFloat y => Ok (PyFloat (on_float x y))
  | NInt x, NFloat y =>
      host_bind (float_of_int x) (fun x' => Ok (PyFloat (on_float x' y)))
  | NFloat x, NInt y =>
      host_bind (float_of_int y) (fun y' => Ok (PyFloat (on_float x y')))
  end.

Fixpoint str_repeat (s : string) (n : nat) : string :=
  match n with
  | O => EmptyString
  | S n' => String.append s (str_repeat s n')
  end.

(** [a + b] *)
Definition add (a b : PyValue) : host PyValue :=
  match a, b with
  | PyStr s, PyStr t => Ok (PyStr (String.append s t))
  | _, _ =>
      match as_number a, as_number b with
      | Some x, Some y => arith Z.add PrimFloat.add x y
      | _, _ => Throw TypeError
      end
  end.

(** [a - b] *)
Definition sub (a b : PyValue) : host PyValue :=
  match as_number a, as_number b with
  | Some x, Some y => arith Z.sub PrimFloat.sub x y
  | _, _ => Throw TypeError
  end.

(** [a * b]; a [str] times an [int] is repetition. *)
Definition mul (a b : PyValue) : host PyValue :=
  match as_number a, as_number b with
  | Some x, Some y => arith Z.mul PrimFloat.mul x y
  | None, Some (NInt n) =>
      match a with
      | PyStr s => Ok (PyStr (str_repeat s (Z.to_nat n)))
      | _ => Throw TypeError
      end
  | Some (NInt n), None =>
      match b with
      | PyStr s => Ok (PyStr (str_repeat s (Z.to_nat n)))
      | _ => Throw TypeError
      end
  | _, _ => Throw TypeError
  end.

(** [a / b]: true division, always a float. *)
Definition truediv (a b : PyValue) : host float :=
  match as_number a, as_number b with
  | Some (NInt x), Some (NInt y) => int_true_divide x y
  | Some (NFloat x), Some (NFloat y) => float_true_divide x y
  | Some (NInt x), Some (NFloat y) =>
      host_bind (float_of_int x) (fun x' => float_true_divide x' y)
  | Some (NFloat x), Some (NInt y) =>
      host_bind (float_of_int y) (fun y' => float_true_divide x y')
  | _, _ => Throw TypeError
  end.

(** Exact comparison of an int with a double; [None] stands for
    "unordered" (a NaN is involved). *)
Definition compare_int_float (x : Z) (f : float) : option comparison :=
  match Prim2SF f with
  | S754_nan => None
  | S754_infinity s => Some (if s then Gt else Lt)
  | S754_zero _ => Some (x ?= 0)
  | S754_finite s m e =>
      let fm := if s then Zneg m else Zpos m in
      if 0 <=? e then Some (x ?= Z.shiftl fm e)
      else Some (Z.shiftl x (- e) ?= fm)
  end.

(** The comparison operators. *)
Inductive relop : Type := Rlt | Rle | Rgt | Rge | Req.

Definition holds (op : relop) (c : option comparison) : bool :=
  match op, c with
  | Rlt, Some Lt => true
  | Rle, Some (Lt | Eq) => true
  | Rgt, Some Gt => true
  | Rge, Some (Gt | Eq) => true
  | Req, Some Eq => true
  | _, _ => false
  end.

(** Two doubles compare as IEEE 754 says; a NaN is unordered. *)
Definition float_rel (op : relop) (x y : float) : bool :=
  match op with
  | Rlt => PrimFloat.ltb x y
  | Rle => PrimFloat.leb x y
  | Rgt => PrimFloat.ltb y x
  | Rge => PrimFloat.leb y x
  | Req => PrimFloat.eqb x y
  end.

Definition number_rel (op : relop) (a b : number) : bool :=
  match a, b with
  | NInt x, NInt y => holds op (Some (x ?= y))
  | NFloat x, NFloat y => float_rel op x y
  | NInt x, NFloat y => holds op (compare_int_float x y)
  | NFloat x, NInt y => holds op (option_map CompOpp (compare_int_float y x))
  end.

(** Rich comparison: numbers among themselves, strings among themselves
    (by code point); every other pairing raises [TypeError] for an ordering
    and is simply unequal for [==]. *)
Definition ordering (op : relop) (a b : PyValue) : host bool :=
  match a, b with
  | PyStr s, PyStr t => Ok (holds op (Some (String.compare s t)))
  | _, _ =>
      match as_number a, as_number b with
      | Some x, Some y => Ok (number_rel op x y)
      | _, _ => Throw TypeError
      end
  end.

Definition lt := ordering Rlt.
Definition le := ordering Rle.
Definition gt := ordering Rgt.
Definition ge := ordering Rge.

(** [a == b] never raises. *)
Definition eq (a b : PyValue) : bool :=
  match a, b with
  | PyNone, PyNone => true
  | PyStr s, PyStr t => String.eqb s t
  | _, _ =>
      match as_number a, as_number b with
      | Some x, Some y => number_rel Req x y
      | _, _ => false
      end
  end.

(** [a != b] *)
Definition ne (a b : PyValue) : bool := negb (eq a b).

(** [a and b], [a or b], [not a] *)
Definition and_ (a b : PyValue) : PyValue := if truthy a then b else a.
Definition or_ (a b : PyValue) : PyValue := if truthy a then a else b.
Definition not_ (a : PyValue) : PyValue := PyBool (negb (truthy a)).

End Py.

Import Py.

(** ** Type tags, errors and syntax ([stimpl.types], [stimpl.errors],
       [stimpl.expression]) *)

(** Modelled from the spec: the module [stimpl.types] is not part of the
    sources at hand.  A type tag is "one of Unit, Integer, FloatingPoint,
    String, Boolean", and two tags are equal when they are the same tag. *)
Inductive Type_ : Type :=
| Unit
| Integer
| FloatingPoint
| String
| Boolean.

Definition Type_eqb (a b : Type_) : bool :=
  match a, b with
  | Unit, Unit | Integer, Integer | FloatingPoint, FloatingPoint
  | String, String | Boolean, Boolean => true
  | _, _ => false
  end.

(** Modelled from the spec: the module [stimpl.errors] is not part of the
    sources at hand.  Three classified interpreter errors; anything else
    that stops an evaluation is an exception of the host. *)
Inductive Error : Type :=
| InterpSyntaxError
| InterpTypeError
| InterpMathError
| HostFailure (h : HostError).

Unset Elimination Schemes.

(** Modelled from the spec: the module [stimpl.expression] is not part of
    the sources at hand.  The node kinds are those [evaluate] dispatches on,
    with the fields its patterns name; literals wrap a datum of their own
    kind, [Assign] carries the name of its target [Variable], and
    [OtherExpr] stands for any node kind [evaluate] has no case for. *)
Inductive Expr : Type :=
| Ren
| IntLiteral (literal : Z)
| FloatingPointLiteral (literal : float)
| StringLiteral (literal : string)
| BooleanLiteral (literal : bool)
| Print (to_print : Expr)
| Sequence (exprs : list Expr)
| Program (exprs : list Expr)
| Variable_ (variable_name : string)
| Assign (variable : string) (value : Expr)
| Add (left_ right_ : Expr)
| Subtract (left_ right_ : Expr)
| Multiply (left_ right_ : Expr)
| Divide (left_ right_ : Expr)
| And (left_ right_ : Expr)
| Or (left_ right_ : Expr)
| Not (expr : Expr)
| If (condition true_ false_ : Expr)
| Lt (left_ right_ : Expr)
| Lte (left_ right_ : Expr)
| Gt (left_ right_ : Expr)
| Gte (left_ right_ : Expr)
| Eq_ (left_ right_ : Expr)
| Ne (left_ right_ : Expr)
| While (condition body : Expr)
| OtherExpr.

Set Elimination Schemes.

(** ** Interpreter state *)

(** [State] objects are never updated after construction: a chain of
    immutable bindings ending in [EmptyState]. *)
Inductive State : Type :=
| EmptyState
| mkState (variable_name : string) (value : PyValue * Type_) (next_state : State).

Definition set_value (self : State) (variable_name : string)
    (variable_value : PyValue) (variable_type : Type_) : State :=
  mkState variable_name (variable_value, variable_type) self.

Fixpoint get_value (self : State) (variable_name : string) : option (PyValue * Type_) :=
  match self with
  | EmptyState => None
  | mkState name value next_state =>
      if String.eqb name variable_name then Some value
      else get_value next_state variable_name
  end.

(** ** Evaluation *)

(** What [print] wrote, one entry per call. *)
Inductive Line : Type :=
| UnitLine
| ValueLine (v : PyValue).

Inductive Outcome (A : Type) : Type :=
| Return (a : A)
| Raise (e : Error)
| OutOfFuel.

Arguments Return {A} a.
Arguments Raise {A} e.
Arguments OutOfFuel {A}.

(** A computation reads the lines printed so far and gives an outcome
    together with the lines printed by then: what was printed before an
    error stays printed. *)
Definition M (A : Type) : Type := list Line -> Outcome A * list Line.

Definition ret {A : Type} (a : A) : M A := fun out => (Return a, out).
Definition raise {A : Type} (e : Error) : M A := fun out => (Raise e, out).
Definition out_of_fuel {A : Type} : M A := fun out => (OutOfFuel, out).
Definition print (l : Line) : M unit := fun out => (Return tt, out ++ [l]).

Definition bind {A B : Type} (m : M A) (k : A -> M B) : M B :=
  fun out =>
    match m out with
    | (Return a, out') => k a out'
    | (Raise e, out') => (Raise e, out')
    | (OutOfFuel, out') => (OutOfFuel, out')
    end.

Definition lift {A : Type} (h : host A) : M A :=
  match h with
  | Ok a => ret a
  | Throw e => raise (HostFailure e)
  end.

Notation "x <- m ;; k" := (bind m (fun x => k))
  (at level 61, m at next level, right associativity).
Notation "' p <- m ;; k" := (bind m (fun x => match x with p => k end))
  (at level 61, p pattern, m at next level, right associativity).

Definition Triple : Type := PyValue * Type_ * State.

(** The common prologue of every binary node: left operand, then the right
    one in the state the left one produced, then the comparison of tags. *)
Definition operands (eval_left eval_right : State -> M Triple) (state : State)
    : M (PyValue * Type_ * PyValue * State) :=
  '(left_result, left_type, new_state) <- eval_left state ;;
  '(right_result, right_type, new_state) <- eval_right new_state ;;
  if negb (Type_eqb left_type right_type) then raise InterpTypeError
  else ret (left_result, left_type, right_result, new_state).

(** The [for] loop of the [Sequence]/[Program] case.  [last] holds the
    locals [value] and [expr_type]; they are unbound until the first
    iteration has run. *)
Definition eval_sequence (eval : Expr -> State -> M Triple)
    : list Expr -> option (PyValue * Type_) -> State -> M Triple :=
  fix loop (exprs : list Expr) (last : option (PyValue * Type_)) (state : State) :=
    match exprs with
    | [] =>
        match last with
        | Some (value, expr_type) => ret (value, expr_type, state)
        | None => raise (HostFailure UnboundLocalError)
        end
    | expr :: rest =>
        '(value, expr_type, state) <- eval expr state ;;
        loop rest (Some (value, expr_type)) state
    end.

(** The [while] statement of the [While] case; [fuel] bounds the number of
    iterations. *)
Definition while_loop (eval_body eval_condition : State -> M Triple)
    : nat -> PyValue -> Type_ -> State -> M Triple :=
  fix loop (fuel : nat) (condition_value : PyValue) (condition_type : Type_)
      (new_state : State) :=
    if truthy condition_value then
      match fuel with
      | O => out_of_fuel
      | S fuel' =>
          '(_, _, new_state) <- eval_body new_state ;;
          '(condition_value, condition_type, new_state) <- eval_condition new_state ;;
          loop fuel' condition_value condition_type new_state
      end
    else ret (PyBool false, condition_type, new_state).

(** [value_type != variable_type and variable_type != None] *)
Definition assign_mismatch (value_type : Type_) (variable_type : option Type_) : bool :=
  match variable_type with
  | Some t => negb (Type_eqb value_type t)
  | None => true
  end
  &&
  match variable_type with
  | Some _ => true
  | None => false
  end.

(** [right_result == 0 or right_result == 0.0] *)
Definition is_zero (right_result : PyValue) : bool :=
  Py.eq right_result (PyInt 0) || Py.eq right_result (PyFloat PrimFloat.zero).

(** [right_result != 0 or right_result != 0.0] *)
Definition is_not_zero (right_result : PyValue) : bool :=
  Py.ne right_result (PyInt 0) || Py.ne right_result (PyFloat PrimFloat.zero).

(** The six relational nodes differ in the operator applied to data and in
    the fixed answer for [Unit]. *)
Definition relational (op : PyValue -> PyValue -> host bool) (on_unit : bool)
    (left_value : PyValue) (left_type : Type_) (right_value : PyValue) : M PyValue :=
  match left_type with
  | Integer | Boolean | String | FloatingPoint =>
      result <- lift (op left_value right_value) ;; ret (PyBool result)
  | Unit => ret (PyBool on_unit)
  end.

Fixpoint evaluate (fuel : nat) (expression : Expr) (state : State) {struct expression}
    : M Triple :=
  match expression with
  | Ren => ret (PyNone, Unit, state)
  | IntLiteral l => ret (PyInt l, Integer, state)
  | FloatingPointLiteral l => ret (PyFloat l, FloatingPoint, state)
  | StringLiteral l => ret (PyStr l, String, state)
  | BooleanLiteral l => ret (PyBool l, Boolean, state)
  | Print to_print =>
      '(printable_value, printable_type, new_state) <- evaluate fuel to_print state ;;
      _ <- print match printable_type with
                 | Unit => UnitLine
                 | _ => ValueLine printable_value
                 end ;;
      ret (printable_value, printable_type, new_state)
  | Sequence exprs | Program exprs =>
      eval_sequence (evaluate fuel) exprs None state
  | Variable_ variable_name =>
      match get_value state variable_name with
      | None => raise InterpSyntaxError
      | Some (variable_value, variable_type) =>
          ret (variable_value, variable_type, state)
      end
  | Assign variable value =>
      '(value_result, value_type, new_state) <- evaluate fuel value state ;;
      let variable_from_state := get_value new_state variable in
      let variable_type := option_map snd variable_from_state in
      if assign_mismatch value_type variable_type then raise InterpTypeError
      else
        let new_state := set_value new_state variable value_result value_type in
        ret (value_result, value_type, new_state)
  | Add left_ right_ =>
      '(left_result, left_type, right_result, new_state) <-
        operands (evaluate fuel left_) (evaluate fuel right_) state ;;
      match left_type with
      | Integer | String | FloatingPoint =>
          result <- lift (Py.add left_result right_result) ;;
          ret (result, left_type, new_state)
      | _ => raise InterpTypeError
      end
  | Subtract left_ right_ =>
      '(left_result, left_type, right_result, new_state) <-
        operands (evaluate fuel left_) (evaluate fuel right_) state ;;
      match left_type with
      | Integer | FloatingPoint =>
          result <- lift (Py.sub left_result right_result) ;;
          ret (result, left_type, new_state)
      | _ => raise InterpTypeError
      end
  | Multiply left_ right_ =>
      '(left_result, left_type, right_result, new_state) <-
        operands (evaluate fuel left_) (evaluate fuel right_) state ;;
      match left_type with
      | Integer | FloatingPoint =>
          result <- lift (Py.mul left_result right_result) ;;
          ret (result, left_type, new_state)
      | _ => raise InterpTypeError
      end
  | Divide left_ right_ =>
      '(left_result, left_type, right_result, new_state) <-
        operands (evaluate fuel left_) (evaluate fuel right_) state ;;
      if is_zero right_result then raise InterpMathError
      else
        match left_type with
        | Integer =>
            if is_not_zero right_result then
              result <- lift (Py.truediv left_result right_result) ;;
              result <- lift (Py.int_of_float result) ;;
              ret (PyInt result, left_type, new_state)
            else raise (HostFailure UnboundLocalError)
        | FloatingPoint =>
            if is_not_zero right_result then
              result <- lift (Py.truediv left_result right_result) ;;
              ret (PyFloat result, left_type, new_state)
            else raise (HostFailure UnboundLocalError)
        | _ => raise InterpTypeError
        end
  | And left_ right_ =>
      '(left_value, left_type, right_value, new_state) <-
        operands (evaluate fuel left_) (evaluate fuel right_) state ;;
      match left_type with
      | Boolean => ret (Py.and_ left_value right_value, left_type, new_state)
      | _ => raise InterpTypeError
      end
  | Or left_ right_ =>
      '(left_value, left_type, right_value, new_state) <-
        operands (evaluate fuel left_) (evaluate fuel right_) state ;;
      match left_type with
      | Boolean => ret (Py.or_ left_value right_value, left_type, new_state)
      | _ => raise InterpTypeError
      end
  | Not expr =>
      '(expr_value, expr_type, new_state) <- evaluate fuel expr state ;;
      match expr_type with
      | Boolean => ret (Py.not_ expr_value, expr_type, new_state)
      | _ => raise InterpTypeError
      end
  | If condition true_ false_ =>
      '(condition_value, condition_type, new_state) <- evaluate fuel condition state ;;
      match condition_type with
      | Boolean =>
          if truthy condition_value then evaluate fuel true_ new_state
          else evaluate fuel false_ new_state
      | _ => raise InterpTypeError
      end
  | Lt left_ right_ =>
      '(left_value, left_type, right_value, new_state) <-
        operands (evaluate fuel left_) (evaluate fuel right_) state ;;
      result <- relational Py.lt false left_value left_type right_value ;;
      ret (result, Boolean, new_state)
  | Lte left_ right_ =>
      '(left_value, left_type, right_value, new_state) <-
        operands (evaluate fuel left_) (evaluate fuel right_) state ;;
      result <- relational Py.le true left_value left_type right_value ;;
      ret (result, Boolean, new_state)
  | Gt left_ right_ =>
      '(left_value, left_type, right_value, new_state) <-
        operands (evaluate fuel left_) (evaluate fuel right_) state ;;
      result <- relational Py.gt false left_value left_type right_value ;;
      ret (result, Boolean, new_state)
  | Gte left_ right_ =>
      '(left_value, left_type, right_value, new_state) <-
        operands (evaluate fuel left_) (evaluate fuel right_) state ;;
      result <- relational Py.ge true left_value left_type right_value ;;
      ret (result, Boolean, new_state)
  | Eq_ left_ right_ =>
      '(left_value, left_type, right_value, new_state) <-
        operands (evaluate fuel left_) (evaluate fuel right_) state ;;
      result <- relational (fun a b => Ok (Py.eq a b)) true left_value left_type right_value ;;
      ret (result, Boolean, new_state)
  | Ne left_ right_ =>
      '(left_value, left_type, right_value, new_state) <-
        operands (evaluate fuel left_) (evaluate fuel right_) state ;;
      result <- relational (fun a b => Ok (Py.ne a b)) false left_value left_type right_value ;;
      ret (result, Boolean, new_state)
  | While condition body =>
      '(condition_value, condition_type, new_state) <- evaluate fuel condition state ;;
      match condition_type with
      | Boolean =>
          while_loop (evaluate fuel body) (evaluate fuel condition)
            fuel condition_value condition_type new_state
      | _ => raise InterpTypeError
      end
  | OtherExpr => raise InterpSyntaxError
  end.

(** [run_stimpl], without its debug printing. *)
Definition run_stimpl (fuel : nat) (program : Expr) : M Triple :=
  evaluate fuel program EmptyState.

(** ** Notions used in the statements *)

(** The attribute [next_state]; an [EmptyState] object has none. *)
Definition next_state (self : State) : option State :=
  match self with
  | EmptyState => None
  | mkState _ _ next => Some next
  end.

(** The names bound along the chain, head first. *)
Fixpoint bound_names (self : State) : list string :=
  match self with
  | EmptyState => []
  | mkState name _ next => name :: bound_names next
  end.

(** The types a name has been bound with along the chain, head first. *)
Fixpoint types_of (self : State) (variable_name : string) : list Type_ :=
  match self with
  | EmptyState => []
  | mkState name (_, t) next =>
      if String.eqb name variable_name then t :: types_of next variable_name
      else types_of next variable_name
  end.

(** The type a lookup of the name reports, if the name is bound. *)
Definition type_of (self : State) (variable_name : string) : option Type_ :=
  option_map snd (get_value self variable_name).

(** Every binding of a name along the chain carries the same type. *)
Definition types_fixed (self : State) : Prop :=
  forall variable_name t1 t2,
    In t1 (types_of self variable_name) ->
    In t2 (types_of self variable_name) -> t1 = t2.

(** A name bound in [s] is still bound in [s'], with the same type. *)
Definition keeps_types (s s' : State) : Prop :=
  forall variable_name t,
    type_of s variable_name = Some t -> type_of s' variable_name = Some t.

(** One binding added by a successful [Assign]: the test of [evaluate]
    passed in the state being extended. *)
Inductive assign_step : State -> State -> Prop :=
| assign_step_intro (s : State) (variable : string) (v : PyValue) (t : Type_) :
    assign_mismatch t (type_of s variable) = false ->
    assign_step s (set_value s variable v t).

(** Any number of such bindings. *)
Inductive assign_steps : State -> State -> Prop :=
| assign_steps_refl (s : State) : assign_steps s s
| assign_steps_snoc (s s1 s2 : State) :
    assign_steps s s1 -> assign_step s1 s2 -> assign_steps s s2.

(** [s] is a tail of the chain [s']. *)
Inductive is_tail (s : State) : State -> Prop :=
| is_tail_here : is_tail s s
| is_tail_next (name : string) (value : PyValue * Type_) (s' : State) :
    is_tail s s' -> is_tail s (mkState name value s').

(** "Numerically equal to 0 or 0.0": the int 0, a float that IEEE equality
    identifies with 0.0, or [False] (which is the int 0). *)
Definition numerically_zero (v : PyValue) : Prop :=
  match v with
  | PyInt z => z = 0
  | PyFloat f => PrimFloat.eqb f PrimFloat.zero = true
  | PyBool b => b = false
  | PyNone | PyStr _ => False
  end.

(** A datum of the kind its tag announces. *)
Definition has_type (v : PyValue) (t : Type_) : Prop :=
  match t, v with
  | Unit, PyNone
  | Integer, PyInt _
  | FloatingPoint, PyFloat _
  | String, PyStr _
  | Boolean, PyBool _ => True
  | _, _ => False
  end.

(** The three classified interpreter errors. *)
Definition classified (e : Error) : Prop :=
  e = InterpSyntaxError \/ e = InterpTypeError \/ e = InterpMathError.

(** [m'] does whatever [m] does, as soon as [m] has fuel enough. *)
Definition refines {A : Type} (m m' : M A) : Prop :=
  forall out r out', m out = (r, out') -> r <> OutOfFuel -> m' out = (r, out').

(** An evaluation that ends, with some amount of fuel. *)
Definition evaluates (expression : Expr) (state : State) (out : list Line)
    (r : Outcome Triple) (out' : list Line) : Prop :=
  exists fuel, evaluate fuel expression state out = (r, out') /\ r <> OutOfFuel.

(** Truncating integer division, the quotient the integer case of [Divide]
    is meant to produce. *)
Definition truncated_quotient (x y : Z) : Z := Z.quot x y.

(** A computation whose final state, when it returns, is the initial one
    extended by bindings that passed the test of [Assign]. *)
Definition steps_only (m : State -> M Triple) : Prop :=
  forall s out v t s' out',
    m s out = (Return (v, t, s'), out') -> assign_steps s s'.

(** What the [Divide] case does once both operands have been evaluated. *)
Definition divide_tail (lv : PyValue) (lt : Type_) (rv : PyValue) (rt : Type_)
    (new_state : State) : M Triple :=
  if Type_eqb lt rt then
    if is_zero rv then raise InterpMathError
    else
      match lt with
      | Integer =>
          result <- lift (Py.truediv lv rv) ;;
          result <- lift (Py.int_of_float result) ;;
          ret (PyInt result, lt, new_state)
      | FloatingPoint =>
          result <- lift (Py.truediv lv rv) ;;
          ret (PyFloat result, lt, new_state)
      | _ => raise InterpTypeError
      end
  else raise InterpTypeError.

(** *** Programs used as examples *)

Local Open Scope string_scope.

(** [i = 0; while i < 3: i = i + 1] *)
Definition count_loop : Expr :=
  While (Lt (Variable_ "i") (IntLiteral 3))
        (Assign "i" (Add (Variable_ "i") (IntLiteral 1))).

Definition count_to_three : Expr :=
  Sequence [Assign "i" (IntLiteral 0); count_loop].

(** A loop whose condition is Boolean at first and an Integer after one
    iteration. *)
Definition retyping_condition : Expr :=
  If (Eq_ (Variable_ "i") (IntLiteral 0)) (BooleanLiteral true) (IntLiteral 0).

Definition retyping_loop : Expr :=
  Sequence [Assign "i" (IntLiteral 0);
            While retyping_condition (Assign "i" (IntLiteral 1))].

(** [x = (x = "hi"; 5)] *)
Definition self_binding_assign : Expr :=
  Assign "x" (Sequence [Assign "x" (StringLiteral "hi"); IntLiteral 5]).

Local Close Scope string_scope.

(** The reading of the rule "Divide is defined for Integer and
    FloatingPoint only" under which every other shared type is a type
    error, whatever the operands are. *)
Definition divide_rejects_other_types : Prop :=
  forall fuel left_ right_ state out lv rv t s1 o1 s2 o2,
    evaluate fuel left_ state out = (Return (lv, t, s1), o1) ->
    evaluate fuel right_ s1 o1 = (Return (rv, t, s2), o2) ->
    t <> Integer -> t <> FloatingPoint ->
    evaluate fuel (Divide left_ right_) state out = (Raise InterpTypeError, o2).

(** ** Further notions: syntax classes, well-tagged data, output *)

(** [State.copy] and [EmptyState.copy]: a new head with the same binding
    and the same [next_state]. *)
Definition copy (self : State) : State :=
  match self with
  | EmptyState => EmptyState
  | mkState variable_name (variable_value, variable_type) next =>
      mkState variable_name (variable_value, variable_type) next
  end.

(** [p] holds at every node of the expression. *)
Fixpoint all_nodes (p : Expr -> bool) (e : Expr) : bool :=
  p e &&
  match e with
  | Ren | IntLiteral _ | FloatingPointLiteral _ | StringLiteral _
  | BooleanLiteral _ | Variable_ _ | OtherExpr => true
  | Print a | Not a | Assign _ a => all_nodes p a
  | Sequence es | Program es => forallb (all_nodes p) es
  | Add a b | Subtract a b | Multiply a b | Divide a b
  | And a b | Or a b
  | Lt a b | Lte a b | Gt a b | Gte a b | Eq_ a b | Ne a b
  | While a b => all_nodes p a && all_nodes p b
  | If a b c => all_nodes p a && all_nodes p b && all_nodes p c
  end.

Definition is_Print (e : Expr) : bool :=
  match e with Print _ => true | _ => false end.
Definition is_While (e : Expr) : bool :=
  match e with While _ _ => true | _ => false end.

(** No [Print] node, no [While] node. *)
Definition print_free (e : Expr) : bool := all_nodes (fun n => negb (is_Print n)) e.
Definition while_free (e : Expr) : bool := all_nodes (fun n => negb (is_While n)) e.

(** The targets of the [Assign] nodes of an expression. *)
Fixpoint assigned_names (e : Expr) : list string :=
  match e with
  | Ren | IntLiteral _ | FloatingPointLiteral _ | StringLiteral _
  | BooleanLiteral _ | Variable_ _ | OtherExpr => []
  | Print a | Not a => assigned_names a
  | Assign x a => x :: assigned_names a
  | Sequence es | Program es => flat_map assigned_names es
  | Add a b | Subtract a b | Multiply a b | Divide a b
  | And a b | Or a b
  | Lt a b | Lte a b | Gt a b | Gte a b | Eq_ a b | Ne a b
  | While a b => assigned_names a ++ assigned_names b
  | If a b c => assigned_names a ++ assigned_names b ++ assigned_names c
  end.

(** Bindings added by successful [Assign]s whose targets are among
    [names]. *)
Inductive assign_steps_in (names : list string) : State -> State -> Prop :=
| assign_steps_in_refl (s : State) : assign_steps_in names s s
| assign_steps_in_snoc (s s1 : State) (x : string) (v : PyValue) (t : Type_) :
    assign_steps_in names s s1 ->
    In x names ->
    assign_mismatch t (type_of s1 x) = false ->
    assign_steps_in names s (set_value s1 x v t).

Definition steps_only_in (names : list string) (m : State -> M Triple) : Prop :=
  forall s out v t s' out',
    m s out = (Return (v, t, s'), out') -> assign_steps_in names s s'.

(** Every datum stored in the chain is of the kind its tag announces. *)
Fixpoint well_tagged (self : State) : Prop :=
  match self with
  | EmptyState => True
  | mkState _ (v, t) next => has_type v t /\ well_tagged next
  end.

(** A computation only appends to the output, and what it appends (and
    what it gives) does not depend on what was printed before. *)
Definition appends {A : Type} (m : M A) : Prop :=
  forall out r out',
    m out = (r, out') ->
    exists lines, out' = out ++ lines /\ forall out0, m out0 = (r, out0 ++ lines).

(** A computation prints nothing. *)
Definition silent {A : Type} (m : M A) : Prop :=
  forall out r out', m out = (r, out') -> out' = out.

(** Two states no look-up can tell apart. *)
Definition same_lookups (s s' : State) : Prop :=
  forall variable_name, get_value s variable_name = get_value s' variable_name.

(** The twelve node kinds with a [left] and a [right] operand. *)
Inductive binop : Type :=
| OpAdd | OpSubtract | OpMultiply | OpDivide
| OpAnd | OpOr
| OpLt | OpLte | OpGt | OpGte | OpEq | OpNe.

Definition binary (op : binop) (left_ right_ : Expr) : Expr :=
  match op with
  | OpAdd => Add left_ right_
  | OpSubtract => Subtract left_ right_
  | OpMultiply => Multiply left_ right_
  | OpDivide => Divide left_ right_
  | OpAnd => And left_ right_
  | OpOr => Or left_ right_
  | OpLt => Lt left_ right_
  | OpLte => Lte left_ right_
  | OpGt => Gt left_ right_
  | OpGte => Gte left_ right_
  | OpEq => Eq_ left_ right_
  | OpNe => Ne left_ right_
  end.

(** The six comparisons among them, with the answer each gives on Unit. *)
Definition relational_unit_answer (op : binop) : option bool :=
  match op with
  | OpLt | OpGt | OpNe => Some false
  | OpLte | OpGte | OpEq => Some true
  | _ => None
  end.

(** The type tags an arithmetic or logical node accepts. *)
Definition accepts (op : binop) (t : Type_) : bool :=
  match op, t with
  | OpAdd, (Integer | String | FloatingPoint) => true
  | (OpSubtract | OpMultiply | OpDivide), (Integer | FloatingPoint) => true
  | (OpAnd | OpOr), Boolean => true
  | (OpLt | OpLte | OpGt | OpGte | OpEq | OpNe), _ => true
  | _, _ => false
  end.

(** The host exceptions that would show a Python operator applied to data
    it cannot handle, or a division by zero that escaped the test of
    [Divide]. *)
Definition host_mishap (h : HostError) : Prop :=
  h = TypeError \/ h = ZeroDivisionError.

(** A computation that has fuel enough, returns only results satisfying
    [Q], and raises no [host_mishap]. *)
Definition post {A : Type} (Q : A -> Prop) (m : M A) : Prop :=
  forall out r out',
    m out = (r, out') ->
    match r with
    | Return a => Q a
    | Raise (HostFailure h) => ~ host_mishap h
    | Raise _ => True
    | OutOfFuel => False
    end.

(** A triple whose datum is of the kind its tag announces and whose state
    is well tagged. *)
Definition sound_triple (x : Triple) : Prop :=
  match x with (v, t, s') => has_type v t /\ well_tagged s' end.

(** Two computations that, from the same output, print the same lines and
    end the same way: both return, with results related by [R], or both
    raise the same error, or both run out of fuel. *)
Definition agree {A : Type} (R : A -> A -> Prop) (m m' : M A) : Prop :=
  forall out,
    snd (m out) = snd (m' out) /\
    match fst (m out), fst (m' out) with
    | Return a, Return a' => R a a'
    | Raise e, Raise e' => e = e'
    | OutOfFuel, OutOfFuel => True
    | _, _ => False
    end.

(** The same datum and tag, with states no look-up can tell apart. *)
Definition same_triple (x x' : Triple) : Prop :=
  match x, x' with
  | (v, t, s), (v', t', s') => v = v' /\ t = t' /\ same_lookups s s'
  end.

Definition same_operands (x x' : PyValue * Type_ * PyValue * State) : Prop :=
  match x, x' with
  | (lv, lt, rv, s), (lv', lt', rv', s') =>
      lv = lv' /\ lt = lt' /\ rv = rv' /\ same_lookups s s'
  end.

(** ** Proof tools *)

Create HintDb stimpl.

Ltac inv H := inversion H; subst; clear H.

Ltac destruct_triple :=
  repeat match goal with
         | x : Triple |- _ => destruct x as [[? ?] ?]
         | x : (_ * _)%type |- _ => destruct x
         end.

Arguments bind : simpl never.
Arguments ret : simpl never.
Arguments raise : simpl never.
Arguments out_of_fuel : simpl never.
Arguments print : simpl never.
Arguments lift : simpl never.
Arguments operands : simpl never.
Arguments relational : simpl never.
Arguments while_loop : simpl never.
Arguments eval_sequence : simpl never.

(** ** Induction on syntax *)

Section ExprInduction.

Variable P : Expr -> Prop.

Hypothesis case_atom :
  P Ren /\ P OtherExpr /\
  (forall l, P (IntLiteral l)) /\ (forall l, P (FloatingPointLiteral l)) /\
  (forall l, P (StringLiteral l)) /\ (forall l, P (BooleanLiteral l)) /\
  (forall x, P (Variable_ x)).
Hypothesis case_unary :
  forall e, P e -> P (Print e) /\ P (Not e) /\ (forall x, P (Assign x e)).
Hypothesis case_list :
  forall es, Forall P es -> P (Sequence es) /\ P (Program es).
Hypothesis case_arith :
  forall l r, P l -> P r ->
    P (Add l r) /\ P (Subtract l r) /\ P (Multiply l r) /\ P (Divide l r).
Hypothesis case_logic :
  forall l r, P l -> P r -> P (And l r) /\ P (Or l r).
Hypothesis case_rel :
  forall l r, P l -> P r ->
    P (Lt l r) /\ P (Lte l r) /\ P (Gt l r) /\ P (Gte l r) /\
    P (Eq_ l r) /\ P (Ne l r).
Hypothesis case_if : forall c t f, P c -> P t -> P f -> P (If c t f).
Hypothesis case_while : forall c b, P c -> P b -> P (While c b).

Lemma Expr_ind' : forall e, P e.
Proof.
  fix IH 1. intros e.
  assert (IHs : forall es, Forall P es).
  { fix IHl 1. intros [|x xs]; constructor; [apply IH | apply IHl]. }
  destruct e.
  - apply case_atom.
  - apply case_atom.
  - apply case_atom.
  - apply case_atom.
  - apply case_atom.
  - apply case_unary, IH.
  - apply case_list, IHs.
  - apply case_list, IHs.
  - apply case_atom.
  - apply case_unary, IH.
  - apply case_arith; apply IH.
  - apply case_arith; apply IH.
  - apply case_arith; apply IH.
  - apply case_arith; apply IH.
  - apply case_logic; apply IH.
  - apply case_logic; apply IH.
  - apply case_unary, IH.
  - apply case_if; apply IH.
  - apply case_rel; apply IH.
  - apply case_rel; apply IH.
  - apply case_rel; apply IH.
  - apply case_rel; apply IH.
  - apply case_rel; apply IH.
  - apply case_rel; apply IH.
  - apply case_while; apply IH.
  - apply case_atom.
Qed.

End ExprInduction.

(** ** Tags *)

Lemma Type_eqb_eq (a b : Type_) : Type_eqb a b = true <-> a = b.
Proof. destruct a, b; simpl; split; intros H; congruence. Qed.

Lemma Type_eqb_refl (a : Type_) : Type_eqb a a = true.
Proof. apply Type_eqb_eq; reflexivity. Qed.

Lemma Type_eqb_neq (a b : Type_) : Type_eqb a b = false <-> a <> b.
Proof.
  destruct (Type_eqb a b) eqn:E.
  - apply Type_eqb_eq in E. split; [discriminate | congruence].
  - split; [| reflexivity]. intros _ H. apply Type_eqb_eq in H. congruence.
Qed.

Lemma assign_mismatch_false (t : Type_) (o : option Type_) :
  assign_mismatch t o = false <-> (o = None \/ o = Some t).
Proof.
  unfold assign_mismatch. destruct o as [t'|]; simpl.
  - rewrite andb_true_r, negb_false_iff, Type_eqb_eq.
    split; [intros ->; auto | intros [H|H]; congruence].
  - split; auto.
Qed.

Lemma assign_mismatch_true (t : Type_) (o : option Type_) :
  assign_mismatch t o = true <-> exists t', o = Some t' /\ t' <> t.
Proof.
  unfold assign_mismatch. destruct o as [t'|]; simpl.
  - rewrite andb_true_r, negb_true_iff, Type_eqb_neq. split.
    + intros H. exists t'. split; congruence.
    + intros (t'' & E & H). inv E. congruence.
  - split; [discriminate | intros (t' & E & _); discriminate].
Qed.

(** ** The monad *)

Lemma bind_Return {A B : Type} (m : M A) (k : A -> M B) out b out' :
  bind m k out = (Return b, out') ->
  exists a o1, m out = (Return a, o1) /\ k a o1 = (Return b, out').
Proof.
  unfold bind. destruct (m out) as [[a|e|] o1]; intros H; try discriminate.
  exists a, o1. auto.
Qed.

Lemma bind_of_Return {A B : Type} (m : M A) (k : A -> M B) out a o1 :
  m out = (Return a, o1) -> bind m k out = k a o1.
Proof. unfold bind. intros ->. reflexivity. Qed.

Lemma bind_of_Raise {A B : Type} (m : M A) (k : A -> M B) out e o1 :
  m out = (Raise e, o1) -> bind m k out = (Raise e, o1).
Proof. unfold bind. intros ->. reflexivity. Qed.

Lemma lift_Return {A : Type} (h : host A) out a out' :
  lift h out = (Return a, out') -> h = Ok a /\ out' = out.
Proof. destruct h; unfold lift, ret, raise; intros H; inv H; auto. Qed.

Ltac bind_inv H :=
  let a := fresh "a" in
  let o := fresh "o" in
  let E := fresh "E" in
  apply bind_Return in H; destruct H as (a & o & E & H);
  destruct_triple.

(** Peels a computation that returned down to the evaluations it ran. *)
Ltac peel H :=
  repeat (cbv beta iota in H;
          match type of H with
          | bind _ _ _ = (Return _, _) => bind_inv H
          | ret _ _ = (_, _) => unfold ret in H; inv H
          | raise _ _ = (Return _, _) => unfold raise in H; discriminate H
          | out_of_fuel _ = (Return _, _) => unfold out_of_fuel in H; discriminate H
          | print _ _ = (_, _) => unfold print in H; inv H
          | lift _ _ = (Return _, _) => apply lift_Return in H; destruct H as [H ->]
          | (match ?x with _ => _ end) _ = (_, _) => destruct x eqn:?
          end);
  repeat match goal with
         | E : lift _ _ = (Return _, _) |- _ =>
             apply lift_Return in E; destruct E as [E ->]
         | E : print _ _ = (Return _, _) |- _ => unfold print in E; inv E
         end.

Lemma operands_Return eval_left eval_right state out lv lt rv s2 o2 :
  operands eval_left eval_right state out = (Return (lv, lt, rv, s2), o2) ->
  exists s1 o1,
    eval_left state out = (Return (lv, lt, s1), o1) /\
    eval_right s1 o1 = (Return (rv, lt, s2), o2).
Proof.
  unfold operands. intros H. peel H.
  match goal with E : negb _ = false |- _ =>
    apply negb_false_iff, Type_eqb_eq in E; subst end.
  eauto.
Qed.

Lemma operands_of_Return eval_left eval_right state out lv lt s1 o1 rv rt s2 o2 :
  eval_left state out = (Return (lv, lt, s1), o1) ->
  eval_right s1 o1 = (Return (rv, rt, s2), o2) ->
  operands eval_left eval_right state out =
    if Type_eqb lt rt then (Return (lv, lt, rv, s2), o2)
    else (Raise InterpTypeError, o2).
Proof.
  intros Hl Hr. unfold operands.
  rewrite (bind_of_Return _ _ _ _ _ Hl). cbv beta iota.
  rewrite (bind_of_Return _ _ _ _ _ Hr). cbv beta iota.
  destruct (Type_eqb lt rt); reflexivity.
Qed.

(** ** The environment *)

Lemma get_value_set_value_same (e : State) n v t :
  get_value (set_value e n v t) n = Some (v, t).
Proof. simpl. rewrite String.eqb_refl. reflexivity. Qed.

Lemma get_value_set_value_other (e : State) n v t m :
  m <> n -> get_value (set_value e n v t) m = get_value e m.
Proof.
  intros H. simpl. destruct (String.eqb n m) eqn:E; [| reflexivity].
  apply String.eqb_eq in E. congruence.
Qed.

Lemma get_value_unbound (e : State) m :
  ~ In m (bound_names e) -> get_value e m = None.
Proof.
  induction e as [| name value next IH]; simpl; intros H; [reflexivity |].
  destruct (String.eqb name m) eqn:E.
  - apply String.eqb_eq in E. tauto.
  - apply IH. tauto.
Qed.

Lemma get_value_bound (e : State) m :
  In m (bound_names e) -> exists b, get_value e m = Some b.
Proof.
  induction e as [| name value next IH]; simpl; intros H; [contradiction |].
  destruct (String.eqb name m) eqn:E; [eauto |].
  destruct H as [H | H]; [| auto].
  subst. rewrite String.eqb_refl in E. discriminate.
Qed.

(** C1. Looking up [n] in the extension of [e] by [n] gives the pair just
    bound; looking up any other name gives what [e] gives; a name bound
    nowhere along the chain is absent ([None]), in particular every name is
    absent from [EmptyState]; and the extension leaves [e] as it was: [e] is
    the [next_state] of the new head, so every lookup through the old
    handle, also when reached through the new one, answers as before. *)
Theorem lookup_extend_contract (e : State) (n : string) (v : PyValue) (t : Type_) :
  get_value (set_value e n v t) n = Some (v, t) /\
  (forall m, m <> n -> get_value (set_value e n v t) m = get_value e m) /\
  (forall m, ~ In m (bound_names e) -> get_value e m = None) /\
  (forall m, get_value EmptyState m = None) /\
  next_state (set_value e n v t) = Some e /\
  (forall e', next_state (set_value e n v t) = Some e' ->
     forall m, get_value e' m = get_value e m).
Proof.
  repeat split.
  - apply get_value_set_value_same.
  - intros m H. apply get_value_set_value_other, H.
  - apply get_value_unbound.
  - intros e' H m. simpl in H. inv H. reflexivity.
Qed.

(** A use of the contract: shadowing by recency over three bindings. *)
Lemma lookup_extend_contract_witness :
  let e := set_value (set_value EmptyState "x" (PyInt 1) Integer) "y" (PyBool true) Boolean in
  get_value (set_value e "x" (PyInt 2) Integer) "x" = Some (PyInt 2, Integer) /\
  get_value (set_value e "x" (PyInt 2) Integer) "y" = Some (PyBool true, Boolean) /\
  get_value e "x" = Some (PyInt 1, Integer) /\
  get_value e "z" = None.
Proof.
  intros e.
  destruct (lookup_extend_contract e "x" (PyInt 2) Integer) as (H1 & H2 & H3 & _).
  split; [exact H1 |].
  split; [rewrite H2; [reflexivity | discriminate] |].
  split; [reflexivity |].
  apply H3. simpl. intros [H | [H | []]]; discriminate.
Defined.

(** *** Types along the chain *)

Lemma type_of_hd (s : State) x : type_of s x = hd_error (types_of s x).
Proof.
  unfold type_of. induction s as [| name [v t] next IH]; simpl; [reflexivity |].
  destruct (String.eqb name x); [reflexivity | exact IH].
Qed.

Lemma type_of_set_value_same (s : State) x v t :
  type_of (set_value s x v t) x = Some t.
Proof. unfold type_of. rewrite get_value_set_value_same. reflexivity. Qed.

Lemma type_of_set_value_other (s : State) x v t y :
  y <> x -> type_of (set_value s x v t) y = type_of s y.
Proof. intros H. unfold type_of. rewrite get_value_set_value_other; auto. Qed.

Lemma keeps_types_refl (s : State) : keeps_types s s.
Proof. intros x t H. exact H. Qed.

Lemma keeps_types_trans (s1 s2 s3 : State) :
  keeps_types s1 s2 -> keeps_types s2 s3 -> keeps_types s1 s3.
Proof. intros H12 H23 x t H. apply H23, H12, H. Qed.

Lemma assign_step_keeps_types (s s' : State) :
  assign_step s s' -> keeps_types s s'.
Proof.
  intros [s0 x v t Hm] y T Hy.
  destruct (string_dec y x) as [-> | Hne].
  - rewrite type_of_set_value_same.
    apply assign_mismatch_false in Hm. destruct Hm as [Hm | Hm]; congruence.
  - rewrite type_of_set_value_other; assumption.
Qed.

Lemma assign_step_types_fixed (s s' : State) :
  assign_step s s' -> types_fixed s -> types_fixed s'.
Proof.
  intros [s0 x v t Hm] Hfix y t1 t2.
  simpl. destruct (String.eqb x y) eqn:E; [| apply Hfix].
  apply String.eqb_eq in E. subst y.
  assert (Hall : forall t', In t' (types_of s0 x) -> t' = t).
  { intros t' Hin. apply assign_mismatch_false in Hm.
    rewrite type_of_hd in Hm.
    destruct (types_of s0 x) as [| t0 ts] eqn:Ets; [contradiction |].
    simpl in Hm. destruct Hm as [Hm | Hm]; [discriminate |]. inv Hm.
    apply (Hfix x); rewrite Ets; simpl; auto. }
  simpl. intros [<- | H1] [<- | H2]; auto.
  - symmetry. auto.
  - rewrite (Hall _ H1), (Hall _ H2). reflexivity.
Qed.

Lemma assign_step_is_tail (s s' : State) : assign_step s s' -> is_tail s s'.
Proof. intros [s0 x v t _]. constructor. constructor. Qed.

Lemma is_tail_trans (s1 s2 s3 : State) :
  is_tail s1 s2 -> is_tail s2 s3 -> is_tail s1 s3.
Proof.
  intros H12 H23. induction H23; [assumption |]. constructor. auto.
Qed.

Lemma assign_steps_trans (s1 s2 s3 : State) :
  assign_steps s1 s2 -> assign_steps s2 s3 -> assign_steps s1 s3.
Proof.
  intros H12 H23. induction H23; [assumption |].
  eapply assign_steps_snoc; [apply IHassign_steps; assumption | assumption].
Qed.

Lemma assign_steps_keeps_types (s s' : State) :
  assign_steps s s' -> keeps_types s s'.
Proof.
  induction 1; [apply keeps_types_refl |].
  eapply keeps_types_trans; [eassumption |].
  apply assign_step_keeps_types. assumption.
Qed.

Lemma assign_steps_types_fixed (s s' : State) :
  assign_steps s s' -> types_fixed s -> types_fixed s'.
Proof.
  induction 1; intros Hf; [assumption |].
  eapply assign_step_types_fixed; [eassumption | auto].
Qed.

Lemma assign_steps_is_tail (s s' : State) : assign_steps s s' -> is_tail s s'.
Proof.
  induction 1; [constructor |].
  eapply is_tail_trans; [eassumption |]. apply assign_step_is_tail. assumption.
Qed.

Lemma types_fixed_empty : types_fixed EmptyState.
Proof. intros x t1 t2 []. Qed.

(** ** The two loops of [evaluate] *)

Lemma eval_sequence_nil eval last state :
  eval_sequence eval [] last state =
    match last with
    | Some (value, expr_type) => ret (value, expr_type, state)
    | None => raise (HostFailure UnboundLocalError)
    end.
Proof. reflexivity. Qed.

Lemma eval_sequence_cons eval expr rest last state :
  eval_sequence eval (expr :: rest) last state =
    ('(value, expr_type, state) <- eval expr state ;;
     eval_sequence eval rest (Some (value, expr_type)) state).
Proof. reflexivity. Qed.

Lemma while_loop_eq eval_body eval_condition fuel condition_value condition_type new_state :
  while_loop eval_body eval_condition fuel condition_value condition_type new_state =
    if truthy condition_value then
      match fuel with
      | O => out_of_fuel
      | S fuel' =>
          '(_, _, new_state) <- eval_body new_state ;;
          '(condition_value, condition_type, new_state) <- eval_condition new_state ;;
          while_loop eval_body eval_condition fuel' condition_value condition_type new_state
      end
    else ret (PyBool false, condition_type, new_state).
Proof. destruct fuel; reflexivity. Qed.

(** ** Every final state extends the initial one by checked bindings *)

Lemma eval_sequence_steps eval exprs :
  Forall (fun e => steps_only (eval e)) exprs ->
  forall last, steps_only (eval_sequence eval exprs last).
Proof.
  induction 1 as [| e es He _ IH]; intros last s out v t s' out' H.
  - rewrite eval_sequence_nil in H. peel H. constructor.
  - rewrite eval_sequence_cons in H. peel H.
    eapply assign_steps_trans; [eapply He | eapply IH]; eassumption.
Qed.

Lemma while_loop_steps eval_body eval_condition :
  steps_only eval_body -> steps_only eval_condition ->
  forall fuel cv ct s out v t s' out',
    while_loop eval_body eval_condition fuel cv ct s out = (Return (v, t, s'), out') ->
    assign_steps s s'.
Proof.
  intros Hb Hc. induction fuel as [| n IH]; intros cv ct s out v t s' out' H;
    rewrite while_loop_eq in H; peel H; try constructor.
  eapply assign_steps_trans; [eapply Hb; eassumption |].
  eapply assign_steps_trans; [eapply Hc; eassumption |].
  eapply IH; eassumption.
Qed.

Lemma operands_steps eval_left eval_right state out lv lt rv s2 o2 :
  steps_only eval_left -> steps_only eval_right ->
  operands eval_left eval_right state out = (Return (lv, lt, rv, s2), o2) ->
  assign_steps state s2.
Proof.
  intros Hl Hr H. apply operands_Return in H. destruct H as (s1 & o1 & H1 & H2).
  eapply assign_steps_trans; [eapply Hl | eapply Hr]; eassumption.
Qed.

Lemma relational_Return op on_unit lv lt rv out r out' :
  relational op on_unit lv lt rv out = (Return r, out') -> out' = out.
Proof. unfold relational. intros H. peel H; reflexivity. Qed.

Ltac binary_steps H IHl IHr :=
  simpl in H; bind_inv H;
  match goal with
  | E : operands _ _ _ _ = _ |- _ =>
      apply (operands_steps _ _ _ _ _ _ _ _ _ IHl IHr) in E
  end;
  peel H; assumption.

Lemma evaluate_steps fuel expression : steps_only (evaluate fuel expression).
Proof.
  revert expression.
  apply (Expr_ind' (fun e => steps_only (evaluate fuel e))).
  - repeat split; intros; intros s out v t s' out' H; simpl in H; peel H;
      constructor.
  - intros e IH.
    repeat split; intros; intros s out v t s' out' H; simpl in H; peel H.
    + eapply IH; eassumption.
    + eapply IH; eassumption.
    + eapply assign_steps_snoc; [eapply IH; eassumption |].
      constructor. assumption.
  - intros es IH.
    split; intros s out v t s' out' H; simpl in H;
      eapply eval_sequence_steps; eassumption.
  - intros l r IHl IHr.
    repeat split; intros s out v t s' out' H; binary_steps H IHl IHr.
  - intros l r IHl IHr.
    repeat split; intros s out v t s' out' H; binary_steps H IHl IHr.
  - intros l r IHl IHr.
    repeat split; intros s out v t s' out' H; simpl in H; bind_inv H;
      match goal with
      | E : operands _ _ _ _ = _ |- _ =>
          apply (operands_steps _ _ _ _ _ _ _ _ _ IHl IHr) in E
      end;
      bind_inv H;
      match goal with
      | E : relational _ _ _ _ _ _ = _ |- _ => apply relational_Return in E; subst
      end;
      peel H; assumption.
  - intros c e1 e2 IHc IH1 IH2 s out v t s' out' H; simpl in H. peel H.
    + eapply assign_steps_trans; [eapply IHc | eapply IH1]; eassumption.
    + eapply assign_steps_trans; [eapply IHc | eapply IH2]; eassumption.
  - intros c b IHc IHb s out v t s' out' H; simpl in H. bind_inv H.
    destruct t0; try (peel H; fail).
    eapply assign_steps_trans; [eapply IHc; eassumption |].
    eapply while_loop_steps; [exact IHb | exact IHc | eassumption].
Qed.

(** ** Assignment *)

Lemma evaluate_Assign fuel x e s out v t s1 o1 :
  evaluate fuel e s out = (Return (v, t, s1), o1) ->
  evaluate fuel (Assign x e) s out =
    if assign_mismatch t (type_of s1 x) then (Raise InterpTypeError, o1)
    else (Return (v, t, set_value s1 x v t), o1).
Proof.
  intros H. simpl. rewrite (bind_of_Return _ _ _ _ _ H). cbv beta iota zeta.
  unfold type_of. destruct (assign_mismatch _ _); reflexivity.
Qed.

Lemma evaluate_keeps_types fuel e s out v t s' out' :
  evaluate fuel e s out = (Return (v, t, s'), out') -> keeps_types s s'.
Proof. intros H. eapply assign_steps_keeps_types, evaluate_steps, H. Qed.

Lemma evaluate_types_fixed fuel e s out v t s' out' :
  evaluate fuel e s out = (Return (v, t, s'), out') ->
  types_fixed s -> types_fixed s'.
Proof. intros H. eapply assign_steps_types_fixed, evaluate_steps, H. Qed.

Lemma evaluate_is_tail fuel e s out v t s' out' :
  evaluate fuel e s out = (Return (v, t, s'), out') -> is_tail s s'.
Proof. intros H. eapply assign_steps_is_tail, evaluate_steps, H. Qed.

(** C2. Let the value sub-expression of an [Assign] to [x] evaluate to
    [(v, t)], leaving the state [s1] in which [evaluate] looks [x] up.
    - If [x] is bound with a type other than [t] (in [s1], or already in
      the state the [Assign] started from), the [Assign] raises
      [InterpTypeError].
    - If [x] has no binding there, the [Assign] succeeds whatever [t] is.
    - If [x] is bound with type [t], the [Assign] succeeds, and a look-up of
      [x] in the state it returns gives the new value.
    Hence an evaluation never changes the type a bound name is looked up
    with, it keeps a chain whose bindings of each name agree on the type in
    that condition, and every state reached from [EmptyState] is such a
    chain. *)
Theorem assign_type_fixing :
  (forall fuel x e s out v t s1 o1,
     evaluate fuel e s out = (Return (v, t, s1), o1) ->
     (forall T, type_of s1 x = Some T \/ type_of s x = Some T -> T <> t ->
        evaluate fuel (Assign x e) s out = (Raise InterpTypeError, o1)) /\
     (type_of s1 x = None \/ type_of s1 x = Some t ->
        evaluate fuel (Assign x e) s out = (Return (v, t, set_value s1 x v t), o1) /\
        get_value (set_value s1 x v t) x = Some (v, t))) /\
  (forall fuel e s out v t s' out',
     evaluate fuel e s out = (Return (v, t, s'), out') ->
     keeps_types s s' /\ (types_fixed s -> types_fixed s')) /\
  (forall fuel program out v t s' out',
     run_stimpl fuel program out = (Return (v, t, s'), out') -> types_fixed s').
Proof.
  split; [| split].
  - intros fuel x e s out v t s1 o1 H.
    pose proof (evaluate_Assign fuel x e s out v t s1 o1 H) as HA.
    split.
    + intros T HT Hne.
      assert (HT1 : type_of s1 x = Some T).
      { destruct HT as [HT | HT]; [exact HT |].
        eapply evaluate_keeps_types; eassumption. }
      rewrite HA.
      replace (assign_mismatch t (type_of s1 x)) with true; [reflexivity |].
      symmetry. apply assign_mismatch_true. eauto.
    + intros Hok. split; [| apply get_value_set_value_same].
      rewrite HA.
      replace (assign_mismatch t (type_of s1 x)) with false; [reflexivity |].
      symmetry. apply assign_mismatch_false. exact Hok.
  - intros fuel e s out v t s' out' H. split.
    + eapply evaluate_keeps_types, H.
    + eapply evaluate_types_fixed, H.
  - intros fuel program out v t s' out' H.
    eapply evaluate_types_fixed; [exact H | apply types_fixed_empty].
Qed.

(** The rule at work: [x = 5; x = "hi"] is refused, and after
    [x = 1; x = 2] the name [x] reads 2. *)
Lemma assign_type_fixing_witness :
  evaluate 0 (Assign "x" (StringLiteral "hi"))
    (set_value EmptyState "x" (PyInt 5) Integer) [] = (Raise InterpTypeError, []) /\
  evaluate 0 (Assign "x" (IntLiteral 2))
    (set_value EmptyState "x" (PyInt 1) Integer) [] =
    (Return (PyInt 2, Integer,
             set_value (set_value EmptyState "x" (PyInt 1) Integer) "x" (PyInt 2) Integer),
     []) /\
  evaluate 0 (Assign "x" (StringLiteral "hi")) EmptyState [] =
    (Return (PyStr "hi", String, set_value EmptyState "x" (PyStr "hi") String), []).
Proof.
  destruct assign_type_fixing as (HA & _ & _).
  pose (s0 := set_value EmptyState "x" (PyInt 5) Integer).
  pose (s1 := set_value EmptyState "x" (PyInt 1) Integer).
  split; [| split].
  - apply (proj1 (HA 0%nat "x"%string (StringLiteral "hi") s0 []
                     (PyStr "hi") String s0 [] eq_refl) Integer).
    + left. reflexivity.
    + discriminate.
  - apply (proj2 (HA 0%nat "x"%string (IntLiteral 2) s1 []
                     (PyInt 2) Integer s1 [] eq_refl)).
    right. reflexivity.
  - apply (proj2 (HA 0%nat "x"%string (StringLiteral "hi") EmptyState []
                     (PyStr "hi") String EmptyState [] eq_refl)).
    left. reflexivity.
Defined.

(** ** The loop *)

Lemma while_loop_shape eval_body eval_condition :
  forall fuel cv ct s out v t s' out',
    while_loop eval_body eval_condition fuel cv ct s out = (Return (v, t, s'), out') ->
    v = PyBool false /\
    ((truthy cv = false /\ t = ct /\ s' = s /\ out' = out) \/
     exists s0 o0 cv',
       eval_condition s0 o0 = (Return (cv', t, s'), out') /\ truthy cv' = false).
Proof.
  induction fuel as [| n IH]; intros cv ct s out v t s' out' H;
    rewrite while_loop_eq in H; destruct (truthy cv) eqn:Hcv; peel H;
    try (split; [reflexivity | left; auto]; fail).
  destruct (IH _ _ _ _ _ _ _ _ H) as [-> [(Hf & -> & -> & ->) | Hlast]].
  - split; [reflexivity |]. right. eauto.
  - split; [reflexivity |]. right. exact Hlast.
Qed.

Lemma evaluate_While fuel c b s out cv ct s1 o1 :
  evaluate fuel c s out = (Return (cv, ct, s1), o1) ->
  evaluate fuel (While c b) s out =
    match ct with
    | Boolean => while_loop (evaluate fuel b) (evaluate fuel c) fuel cv ct s1 o1
    | _ => (Raise InterpTypeError, o1)
    end.
Proof.
  intros H. simpl. rewrite (bind_of_Return _ _ _ _ _ H). cbv beta iota.
  destruct ct; reflexivity.
Qed.

(** C3. A [While] that returns, returns the Boolean datum [False], the type
    tag of the last evaluation of its condition and the state that
    evaluation left; that last evaluation gave a false datum.  The datum is
    [False] whatever the body computed.  With no iteration at all (the
    condition is false at once) the triple is [(False, Boolean, s1)], [s1]
    being the state after the condition. *)
Theorem while_result_shape (fuel : nat) (c b : Expr) (s : State) (out : list Line) :
  (forall v t s' out',
     evaluate fuel (While c b) s out = (Return (v, t, s'), out') ->
     v = PyBool false /\
     exists s0 o0 cv,
       evaluate fuel c s0 o0 = (Return (cv, t, s'), out') /\ truthy cv = false) /\
  (forall cv s1 o1,
     evaluate fuel c s out = (Return (cv, Boolean, s1), o1) ->
     truthy cv = false ->
     evaluate fuel (While c b) s out = (Return (PyBool false, Boolean, s1), o1)).
Proof.
  split.
  - intros v t s' out' H. simpl in H. bind_inv H.
    destruct t0; try (peel H; fail).
    apply while_loop_shape in H.
    destruct H as [-> [(Hf & -> & -> & ->) | Hlast]]; split; eauto.
  - intros cv s1 o1 Hc Hf.
    rewrite (evaluate_While _ _ _ _ _ _ _ _ _ Hc), while_loop_eq, Hf.
    reflexivity.
Qed.

(** The loop of the specification, [while i < 3: i = i + 1] from [i = 0],
    and a loop that never iterates. *)
Lemma while_result_shape_witness :
  (exists s',
     evaluate 3 count_loop (set_value EmptyState "i" (PyInt 0) Integer) [] =
       (Return (PyBool false, Boolean, s'), []) /\
     get_value s' "i" = Some (PyInt 3, Integer)) /\
  evaluate 0 (While (BooleanLiteral false) (IntLiteral 7)) EmptyState [] =
    (Return (PyBool false, Boolean, EmptyState), []).
Proof.
  split.
  - pose (s := set_value EmptyState "i" (PyInt 0) Integer).
    destruct (evaluate 3 count_loop s []) as [[[[v t] s'] | e |] out'] eqn:E;
      try (vm_compute in E; discriminate E).
    destruct (proj1 (while_result_shape 3 _ _ s []) v t s' out' E) as [-> _].
    vm_compute in E. inv E. eexists. split; reflexivity.
  - apply (proj2 (while_result_shape 0 (BooleanLiteral false) (IntLiteral 7)
                    EmptyState []) (PyBool false) EmptyState []); reflexivity.
Defined.

Lemma while_one_iteration fuel c b s out cv s1 o1 bv bt s2 o2 cv' ct' s3 o3 :
  evaluate (S fuel) c s out = (Return (cv, Boolean, s1), o1) ->
  truthy cv = true ->
  evaluate (S fuel) b s1 o1 = (Return (bv, bt, s2), o2) ->
  evaluate (S fuel) c s2 o2 = (Return (cv', ct', s3), o3) ->
  truthy cv' = false ->
  evaluate (S fuel) (While c b) s out = (Return (PyBool false, ct', s3), o3).
Proof.
  intros Hc Ht Hb Hc' Hf.
  rewrite (evaluate_While _ _ _ _ _ _ _ _ _ Hc), while_loop_eq, Ht.
  rewrite (bind_of_Return _ _ _ _ _ Hb). cbv beta iota.
  rewrite (bind_of_Return _ _ _ _ _ Hc'). cbv beta iota.
  rewrite while_loop_eq, Hf. reflexivity.
Qed.

(** C4.  What [evaluate] does with the type of a loop condition.  The tag
    is tested once, before the loop: a condition that is not Boolean then
    raises [InterpTypeError].  The evaluations of the condition that follow
    an iteration are not tested: when one of them gives a false datum the
    loop ends and returns, whatever its tag.  [retyping_loop], whose
    condition is an Integer after the first iteration, returns
    [(False, Integer, _)] where a re-check would raise [InterpTypeError]. *)
Theorem while_condition_checked_once :
  (forall fuel c b s out cv ct s1 o1,
     evaluate fuel c s out = (Return (cv, ct, s1), o1) ->
     ct <> Boolean ->
     evaluate fuel (While c b) s out = (Raise InterpTypeError, o1)) /\
  (forall fuel c b s out cv s1 o1 bv bt s2 o2 cv' ct' s3 o3,
     evaluate (S fuel) c s out = (Return (cv, Boolean, s1), o1) ->
     truthy cv = true ->
     evaluate (S fuel) b s1 o1 = (Return (bv, bt, s2), o2) ->
     evaluate (S fuel) c s2 o2 = (Return (cv', ct', s3), o3) ->
     truthy cv' = false ->
     evaluate (S fuel) (While c b) s out = (Return (PyBool false, ct', s3), o3)) /\
  run_stimpl 1 retyping_loop [] =
    (Return (PyBool false, Integer,
             set_value (set_value EmptyState "i" (PyInt 0) Integer)
               "i" (PyInt 1) Integer),
     []).
Proof.
  split; [| split].
  - intros fuel c b s out cv ct s1 o1 H Hne.
    rewrite (evaluate_While _ _ _ _ _ _ _ _ _ H).
    destruct ct; congruence.
  - intros. eapply while_one_iteration; eassumption.
  - reflexivity.
Qed.

(** ** Division *)

Lemma Prim2SF_zero : Prim2SF PrimFloat.zero = S754_zero false.
Proof. reflexivity. Qed.

Lemma eqb_zero_Prim2SF (f : float) :
  PrimFloat.eqb f PrimFloat.zero = true <-> exists s, Prim2SF f = S754_zero s.
Proof.
  rewrite eqb_spec, Prim2SF_zero. unfold SFeqb, SFcompare.
  destruct (Prim2SF f) as [s | s | | s m e].
  - split; eauto.
  - split; [destruct s; discriminate | intros [s' H]; discriminate].
  - split; [discriminate | intros [s' H]; discriminate].
  - split; [destruct s; discriminate | intros [s' H]; discriminate].
Qed.

Lemma compare_zero_float (f : float) :
  compare_int_float 0 f = Some Eq <-> PrimFloat.eqb f PrimFloat.zero = true.
Proof.
  rewrite eqb_zero_Prim2SF. unfold compare_int_float.
  destruct (Prim2SF f) as [s | s | | s m e].
  - split; eauto.
  - split; [destruct s; discriminate | intros [s' H]; discriminate].
  - split; [discriminate | intros [s' H]; discriminate].
  - split; [| intros [s' H]; discriminate].
    intros H. exfalso.
    destruct (0 <=? e) eqn:He.
    + apply Z.leb_le in He.
      assert (Hsh : Z.shiftl (if s then Zneg m else Zpos m) e = 0).
      { destruct (Z.shiftl (if s then Zneg m else Zpos m) e);
          [reflexivity | discriminate H | discriminate H]. }
      apply Z.shiftl_eq_0_iff in Hsh; [| assumption].
      destruct s; discriminate.
    + rewrite Z.shiftl_0_l in H. destruct s; discriminate.
Qed.

Lemma is_zero_spec (v : PyValue) : is_zero v = true <-> numerically_zero v.
Proof.
  unfold is_zero. destruct v as [| z | f | s | b]; simpl.
  - split; [discriminate | contradiction].
  - rewrite orb_true_iff.
    change (compare_int_float z PrimFloat.zero) with (Some (z ?= 0)).
    assert (Hz : holds Req (Some (z ?= 0)) = true <-> z = 0).
    { simpl. destruct (z ?= 0) eqn:E; split; intros H; try discriminate;
        try reflexivity; try (apply Z.compare_eq; assumption);
        subst; discriminate. }
    tauto.
  - rewrite orb_true_iff.
    assert (H0 : holds Req (option_map CompOpp (compare_int_float 0 f)) = true <->
                 PrimFloat.eqb f PrimFloat.zero = true).
    { rewrite <- compare_zero_float.
      destruct (compare_int_float 0 f) as [[| |] |]; simpl; split;
        intros H; congruence. }
    tauto.
  - split; [discriminate | contradiction].
  - destruct b; simpl; split; intros H; congruence.
Qed.

Lemma is_zero_false (v : PyValue) : is_zero v = false <-> ~ numerically_zero v.
Proof.
  rewrite <- is_zero_spec. destruct (is_zero v); split; congruence.
Qed.

Lemma is_not_zero_of (v : PyValue) : is_zero v = false -> is_not_zero v = true.
Proof.
  unfold is_zero, is_not_zero, Py.ne. intros H.
  apply orb_false_iff in H. destruct H as [-> _]. reflexivity.
Qed.

Lemma evaluate_Divide fuel l r s out lv lt s1 o1 rv rt s2 o2 :
  evaluate fuel l s out = (Return (lv, lt, s1), o1) ->
  evaluate fuel r s1 o1 = (Return (rv, rt, s2), o2) ->
  evaluate fuel (Divide l r) s out = divide_tail lv lt rv rt s2 o2.
Proof.
  intros Hl Hr. simpl. unfold bind at 1.
  rewrite (operands_of_Return _ _ _ _ _ _ _ _ _ _ _ _ Hl Hr).
  unfold divide_tail.
  destruct (Type_eqb lt rt); [| reflexivity].
  destruct (is_zero rv) eqn:Hz; [reflexivity |].
  rewrite (is_not_zero_of _ Hz). destruct lt; reflexivity.
Qed.

(** C5. When both operands of a [Divide] evaluate, to the same type, and
    the right datum is numerically equal to zero, the [Divide] raises
    [InterpMathError].  The type [t] is any of the five, so the zero test
    comes before the branch on the operand type.  What was printed while
    the operands were evaluated stays printed. *)
Theorem divide_by_zero fuel l r s out lv rv t s1 o1 s2 o2 :
  evaluate fuel l s out = (Return (lv, t, s1), o1) ->
  evaluate fuel r s1 o1 = (Return (rv, t, s2), o2) ->
  numerically_zero rv ->
  evaluate fuel (Divide l r) s out = (Raise InterpMathError, o2).
Proof.
  intros Hl Hr Hz. rewrite (evaluate_Divide _ _ _ _ _ _ _ _ _ _ _ _ _ Hl Hr).
  unfold divide_tail. rewrite Type_eqb_refl.
  apply is_zero_spec in Hz. rewrite Hz. reflexivity.
Qed.

(** [1 / 0] and [1.0 / 0.0]. *)
Lemma divide_by_zero_witness :
  evaluate 0 (Divide (IntLiteral 1) (IntLiteral 0)) EmptyState [] =
    (Raise InterpMathError, []) /\
  evaluate 0 (Divide (FloatingPointLiteral 1) (FloatingPointLiteral 0)) EmptyState [] =
    (Raise InterpMathError, []).
Proof.
  split.
  - apply (divide_by_zero 0 (IntLiteral 1) (IntLiteral 0) EmptyState []
             (PyInt 1) (PyInt 0) Integer EmptyState [] EmptyState []);
      reflexivity.
  - apply (divide_by_zero 0 (FloatingPointLiteral 1) (FloatingPointLiteral 0)
             EmptyState [] (PyFloat 1) (PyFloat 0) FloatingPoint
             EmptyState [] EmptyState []);
      reflexivity.
Defined.

(** [True / False]: both operands are Boolean, and the error is the
    arithmetic one. *)
Lemma divide_true_by_false :
  evaluate 0 (Divide (BooleanLiteral true) (BooleanLiteral false)) EmptyState [] =
    (Raise InterpMathError, []).
Proof. reflexivity. Qed.

(** C6, as stated: false.  [Divide] does not answer every pair of operands
    of a type other than Integer and FloatingPoint with a type error. *)
Lemma divide_rejects_other_types_counterexample : ~ divide_rejects_other_types.
Proof.
  intros H.
  specialize (H 0%nat (BooleanLiteral true) (BooleanLiteral false) EmptyState []
                (PyBool true) (PyBool false) Boolean EmptyState [] EmptyState []
                eq_refl eq_refl).
  rewrite divide_true_by_false in H.
  assert (E : (Raise InterpMathError : Outcome Triple, @nil Line) =
              (Raise InterpTypeError, [])).
  { apply H; discriminate. }
  discriminate E.
Qed.

(** C6, amended.  When both operands of a [Divide] evaluate to one type
    that is neither Integer nor FloatingPoint, the [Divide] raises
    [InterpTypeError] if the right datum is not numerically equal to zero,
    and [InterpMathError] if it is; among data of the kind their tag
    announces, the only such zero is the Boolean [False]. *)
Theorem divide_other_types fuel l r s out lv rv t s1 o1 s2 o2 :
  evaluate fuel l s out = (Return (lv, t, s1), o1) ->
  evaluate fuel r s1 o1 = (Return (rv, t, s2), o2) ->
  t <> Integer -> t <> FloatingPoint ->
  (~ numerically_zero rv ->
     evaluate fuel (Divide l r) s out = (Raise InterpTypeError, o2)) /\
  (numerically_zero rv ->
     evaluate fuel (Divide l r) s out = (Raise InterpMathError, o2)) /\
  (has_type rv t -> (numerically_zero rv <-> rv = PyBool false)).
Proof.
  intros Hl Hr Hi Hf.
  rewrite (evaluate_Divide _ _ _ _ _ _ _ _ _ _ _ _ _ Hl Hr).
  unfold divide_tail. rewrite Type_eqb_refl.
  split; [| split].
  - intros Hz. apply is_zero_false in Hz. rewrite Hz.
    destruct t; try reflexivity; congruence.
  - intros Hz. apply is_zero_spec in Hz. rewrite Hz. reflexivity.
  - intros Ht. destruct t, rv; simpl in Ht; try contradiction; try congruence;
      simpl; split; intros H; try contradiction; try discriminate; try congruence.
Qed.

(** ["a" / ""], [None / None] and [True / True] are type errors;
    [True / False] is not. *)
Lemma divide_other_types_witness :
  evaluate 0 (Divide (StringLiteral "a") (StringLiteral "")) EmptyState [] =
    (Raise InterpTypeError, []) /\
  evaluate 0 (Divide Ren Ren) EmptyState [] = (Raise InterpTypeError, []) /\
  evaluate 0 (Divide (BooleanLiteral true) (BooleanLiteral true)) EmptyState [] =
    (Raise InterpTypeError, []) /\
  evaluate 0 (Divide (BooleanLiteral true) (BooleanLiteral false)) EmptyState [] =
    (Raise InterpMathError, []).
Proof.
  split; [| split; [| split]].
  - apply (divide_other_types 0 (StringLiteral "a") (StringLiteral "") EmptyState []
             (PyStr "a") (PyStr "") String EmptyState [] EmptyState []
             eq_refl eq_refl); [discriminate | discriminate | simpl; tauto].
  - apply (divide_other_types 0 Ren Ren EmptyState []
             PyNone PyNone Unit EmptyState [] EmptyState []
             eq_refl eq_refl); [discriminate | discriminate | simpl; tauto].
  - apply (divide_other_types 0 (BooleanLiteral true) (BooleanLiteral true)
             EmptyState [] (PyBool true) (PyBool true) Boolean
             EmptyState [] EmptyState [] eq_refl eq_refl);
      [discriminate | discriminate | simpl; discriminate].
  - apply (divide_other_types 0 (BooleanLiteral true) (BooleanLiteral false)
             EmptyState [] (PyBool true) (PyBool false) Boolean
             EmptyState [] EmptyState [] eq_refl eq_refl);
      [discriminate | discriminate | reflexivity].
Defined.

(** Two floats, the right one not zero: the quotient of the doubles. *)
Lemma divide_floats fuel l r s out x y s1 o1 s2 o2 :
  evaluate fuel l s out = (Return (PyFloat x, FloatingPoint, s1), o1) ->
  evaluate fuel r s1 o1 = (Return (PyFloat y, FloatingPoint, s2), o2) ->
  PrimFloat.eqb y PrimFloat.zero = false ->
  evaluate fuel (Divide l r) s out =
    (Return (PyFloat (PrimFloat.div x y), FloatingPoint, s2), o2).
Proof.
  intros Hl Hr Hy. rewrite (evaluate_Divide _ _ _ _ _ _ _ _ _ _ _ _ _ Hl Hr).
  unfold divide_tail.
  assert (Hz : is_zero (PyFloat y) = false).
  { apply is_zero_false. simpl. congruence. }
  rewrite Type_eqb_refl, Hz.
  unfold Py.truediv, Py.float_true_divide. cbn [as_number].
  rewrite Hy. reflexivity.
Qed.

(** Two ints, the right one not zero: the quotient is first rounded to a
    double, and it is that double which is truncated. *)
Lemma divide_integers fuel l r s out x y s1 o1 s2 o2 :
  evaluate fuel l s out = (Return (PyInt x, Integer, s1), o1) ->
  evaluate fuel r s1 o1 = (Return (PyInt y, Integer, s2), o2) ->
  y <> 0 ->
  evaluate fuel (Divide l r) s out =
    (result <- lift (Py.int_true_divide x y) ;;
     result <- lift (Py.int_of_float result) ;;
     ret (PyInt result, Integer, s2)) o2.
Proof.
  intros Hl Hr Hy. rewrite (evaluate_Divide _ _ _ _ _ _ _ _ _ _ _ _ _ Hl Hr).
  unfold divide_tail.
  assert (Hz : is_zero (PyInt y) = false).
  { apply is_zero_false. simpl. assumption. }
  rewrite Type_eqb_refl, Hz. reflexivity.
Qed.

(** C7.  Integer division as [evaluate] computes it, [int(left / right)]:
    [7 / 2] is 3 and [-7 / 2] is -3, and [7.0 / 2.0] is 3.5; but with
    [2^53 + 1] over 1 the double nearest to the quotient is [2^53], so the
    result is not the truncated quotient, and with [10^400] over 1 there is
    no such double and the evaluation ends in the host's [OverflowError]. *)
Theorem divide_integer_through_float :
  run_stimpl 0 (Divide (IntLiteral 7) (IntLiteral 2)) [] =
    (Return (PyInt (truncated_quotient 7 2), Integer, EmptyState), []) /\
  run_stimpl 0 (Divide (IntLiteral (-7)) (IntLiteral 2)) [] =
    (Return (PyInt (truncated_quotient (-7) 2), Integer, EmptyState), []) /\
  run_stimpl 0 (Divide (FloatingPointLiteral 7) (FloatingPointLiteral 2)) [] =
    (Return (PyFloat 3.5, FloatingPoint, EmptyState), []) /\
  run_stimpl 0 (Divide (IntLiteral 9007199254740993) (IntLiteral 1)) [] =
    (Return (PyInt 9007199254740992, Integer, EmptyState), []) /\
  truncated_quotient 9007199254740993 1 = 9007199254740993 /\
  run_stimpl 0 (Divide (IntLiteral (10 ^ 400)) (IntLiteral 1)) [] =
    (Raise (HostFailure OverflowError), []).
Proof.
  split; [| split; [| split; [| split; [| split]]]]; vm_compute; reflexivity.
Qed.

(** ** The logical connectives *)

Lemma operands_right_Raise eval_left eval_right state out lv lt s1 o1 e o2 :
  eval_left state out = (Return (lv, lt, s1), o1) ->
  eval_right s1 o1 = (Raise e, o2) ->
  operands eval_left eval_right state out = (Raise e, o2).
Proof.
  intros Hl Hr. unfold operands.
  rewrite (bind_of_Return _ _ _ _ _ Hl). cbv beta iota.
  apply bind_of_Raise, Hr.
Qed.

(** C8.  [And] and [Or] evaluate the left operand, then the right one in
    the state the left one left, whatever the left datum is:
    - if both give Booleans, the node returns the state (and the output)
      the right operand produced, also when the left datum is [False] (for
      [And]) or [True] (for [Or]);
    - whenever the node returns, both operands were evaluated, in that
      order, and the state returned is the one after the right operand;
    - an error raised by the right operand is the error of the node. *)
Theorem no_short_circuit (fuel : nat) (l r : Expr) (s : State) (out : list Line) :
  (forall lv s1 o1 rv s2 o2,
     evaluate fuel l s out = (Return (lv, Boolean, s1), o1) ->
     evaluate fuel r s1 o1 = (Return (rv, Boolean, s2), o2) ->
     evaluate fuel (And l r) s out = (Return (Py.and_ lv rv, Boolean, s2), o2) /\
     evaluate fuel (Or l r) s out = (Return (Py.or_ lv rv, Boolean, s2), o2)) /\
  (forall v t s' out',
     evaluate fuel (And l r) s out = (Return (v, t, s'), out') \/
     evaluate fuel (Or l r) s out = (Return (v, t, s'), out') ->
     exists lv s1 o1 rv,
       evaluate fuel l s out = (Return (lv, Boolean, s1), o1) /\
       evaluate fuel r s1 o1 = (Return (rv, Boolean, s'), out')) /\
  (forall lv lt s1 o1 e o2,
     evaluate fuel l s out = (Return (lv, lt, s1), o1) ->
     evaluate fuel r s1 o1 = (Raise e, o2) ->
     evaluate fuel (And l r) s out = (Raise e, o2) /\
     evaluate fuel (Or l r) s out = (Raise e, o2)).
Proof.
  split; [| split].
  - intros lv s1 o1 rv s2 o2 Hl Hr. simpl. unfold bind.
    rewrite (operands_of_Return _ _ _ _ _ _ _ _ _ _ _ _ Hl Hr).
    split; reflexivity.
  - intros v t s' out' [H | H]; simpl in H; bind_inv H;
      match goal with
      | E : operands _ _ _ _ = _ |- _ =>
          apply operands_Return in E; destruct E as (s1 & o1 & Hl & Hr)
      end;
      peel H; eauto 10.
  - intros lv lt s1 o1 e o2 Hl Hr. simpl.
    split; apply bind_of_Raise; eapply operands_right_Raise; eassumption.
Qed.

(** [False and (x = True)] and [True or (x = True)] both bind [x]. *)
Lemma no_short_circuit_witness :
  evaluate 0 (And (BooleanLiteral false) (Assign "x" (BooleanLiteral true)))
    EmptyState [] =
    (Return (PyBool false, Boolean, set_value EmptyState "x" (PyBool true) Boolean), []) /\
  evaluate 0 (Or (BooleanLiteral true) (Assign "x" (BooleanLiteral true)))
    EmptyState [] =
    (Return (PyBool true, Boolean, set_value EmptyState "x" (PyBool true) Boolean), []).
Proof.
  split.
  - apply (proj1 (no_short_circuit 0 (BooleanLiteral false)
                    (Assign "x" (BooleanLiteral true)) EmptyState [])
                 (PyBool false) EmptyState [] (PyBool true)
                 (set_value EmptyState "x" (PyBool true) Boolean) []
                 eq_refl eq_refl).
  - apply (proj1 (no_short_circuit 0 (BooleanLiteral true)
                    (Assign "x" (BooleanLiteral true)) EmptyState [])
                 (PyBool true) EmptyState [] (PyBool true)
                 (set_value EmptyState "x" (PyBool true) Boolean) []
                 eq_refl eq_refl).
Defined.

(** ** The look-up of [Assign] *)

(** C9.  The look-up that decides whether an [Assign] to [x] is allowed is
    made in the state [s1] left by the value sub-expression: the outcome is
    a function of the type of [x] in [s1].  So when [x] is unbound at the
    start and the value sub-expression binds it with a type other than the
    type of the value, the [Assign] raises [InterpTypeError]; this is what
    happens to [x = (x = "hi"; 5)] in the empty state. *)
Theorem assign_checks_after_value :
  (forall fuel x e s out v t s1 o1,
     evaluate fuel e s out = (Return (v, t, s1), o1) ->
     evaluate fuel (Assign x e) s out =
       if assign_mismatch t (type_of s1 x) then (Raise InterpTypeError, o1)
       else (Return (v, t, set_value s1 x v t), o1)) /\
  (forall fuel x e s out v t s1 o1 T,
     evaluate fuel e s out = (Return (v, t, s1), o1) ->
     type_of s x = None -> type_of s1 x = Some T -> T <> t ->
     evaluate fuel (Assign x e) s out = (Raise InterpTypeError, o1)) /\
  type_of EmptyState "x" = None /\
  run_stimpl 0 self_binding_assign [] = (Raise InterpTypeError, []).
Proof.
  split; [| split; [| split]].
  - intros. apply evaluate_Assign. assumption.
  - intros fuel x e s out v t s1 o1 T H _ HT Hne.
    rewrite (evaluate_Assign _ x _ _ _ _ _ _ _ H).
    replace (assign_mismatch t (type_of s1 x)) with true; [reflexivity |].
    symmetry. apply assign_mismatch_true. eauto.
  - reflexivity.
  - reflexivity.
Qed.

(** The inner sequence of [self_binding_assign] returns 5, an Integer, and
    leaves [x] bound to a String. *)
Lemma assign_checks_after_value_witness :
  evaluate 0 self_binding_assign EmptyState [] = (Raise InterpTypeError, []).
Proof.
  apply (proj1 (proj2 assign_checks_after_value) 0%nat "x"%string
           (Sequence [Assign "x" (StringLiteral "hi"); IntLiteral 5])
           EmptyState [] (PyInt 5) Integer
           (set_value EmptyState "x" (PyStr "hi") String) [] String).
  - reflexivity.
  - reflexivity.
  - reflexivity.
  - discriminate.
Defined.

(** ** The empty sequence *)

(** C10.  A [Sequence] or a [Program] with no sub-expression never returns
    a triple: with any fuel, in any state, the evaluation ends in the
    host's [UnboundLocalError] (the locals [value] and [expr_type] are read
    before any assignment), which is none of the three classified
    interpreter errors; nothing is printed. *)
Theorem empty_sequence_host_error (fuel : nat) (s : State) (out : list Line) :
  evaluate fuel (Sequence []) s out = (Raise (HostFailure UnboundLocalError), out) /\
  evaluate fuel (Program []) s out = (Raise (HostFailure UnboundLocalError), out) /\
  (forall triple,
     fst (evaluate fuel (Sequence []) s out) <> Return triple /\
     fst (evaluate fuel (Program []) s out) <> Return triple) /\
  ~ classified (HostFailure UnboundLocalError).
Proof.
  split; [reflexivity |]. split; [reflexivity |]. split.
  - intros triple. split; discriminate.
  - intros [H | [H | H]]; discriminate H.
Qed.

(** ** Fuel *)

Lemma refines_refl {A : Type} (m : M A) : refines m m.
Proof. intros out r out' H _. exact H. Qed.

Lemma refines_bind {A B : Type} (m m' : M A) (k k' : A -> M B) :
  refines m m' -> (forall a, refines (k a) (k' a)) ->
  refines (bind m k) (bind m' k').
Proof.
  intros Hm Hk out r out' H Hne. unfold bind in *.
  destruct (m out) as [[a | e |] o1] eqn:E.
  - rewrite (Hm _ _ _ E) by discriminate. apply Hk; assumption.
  - rewrite (Hm _ _ _ E) by discriminate. assumption.
  - inv H. congruence.
Qed.

Lemma operands_refines el el' er er' s :
  (forall s, refines (el s) (el' s)) -> (forall s, refines (er s) (er' s)) ->
  refines (operands el er s) (operands el' er' s).
Proof.
  intros Hl Hr. unfold operands.
  apply refines_bind; [apply Hl |]. intros [[lv lt] s1].
  apply refines_bind; [apply Hr |]. intros a. apply refines_refl.
Qed.

Lemma eval_sequence_refines eval eval' exprs :
  Forall (fun e => forall s, refines (eval e s) (eval' e s)) exprs ->
  forall last s,
    refines (eval_sequence eval exprs last s) (eval_sequence eval' exprs last s).
Proof.
  induction 1 as [| e es He _ IH]; intros last s.
  - apply refines_refl.
  - rewrite !eval_sequence_cons.
    apply refines_bind; [apply He |]. intros [[v t] s1]. apply IH.
Qed.

Lemma while_loop_refines eb eb' ec ec' :
  (forall s, refines (eb s) (eb' s)) -> (forall s, refines (ec s) (ec' s)) ->
  forall n m, (n <= m)%nat ->
  forall cv ct s,
    refines (while_loop eb ec n cv ct s) (while_loop eb' ec' m cv ct s).
Proof.
  intros Hb Hc. induction n as [| n IH]; intros m Hle cv ct s;
    rewrite !while_loop_eq; destruct (truthy cv); try apply refines_refl.
  - intros out r out' H Hne. unfold out_of_fuel in H. inv H. congruence.
  - destruct m as [| m]; [lia |].
    apply refines_bind; [apply Hb |]. intros [[bv bt] s1].
    apply refines_bind; [apply Hc |]. intros [[cv' ct'] s2].
    apply IH. lia.
Qed.

Ltac refines_tail :=
  repeat first
    [ apply refines_refl
    | apply refines_bind; [| intros ?a; destruct_triple; cbv beta iota ]
    | match goal with
      | |- refines (match ?x with _ => _ end) _ => destruct x
      end ].

(** More fuel changes nothing for an evaluation that had enough of it. *)
Lemma evaluate_fuel_mono (n m : nat) :
  (n <= m)%nat ->
  forall expression state,
    refines (evaluate n expression state) (evaluate m expression state).
Proof.
  intros Hle.
  apply (Expr_ind' (fun e => forall s, refines (evaluate n e s) (evaluate m e s))).
  - repeat split; intros; apply refines_refl.
  - intros e IH. repeat split; intros; simpl;
      (apply refines_bind; [apply IH |]); intros; destruct_triple;
      cbv beta iota zeta; refines_tail.
  - intros es IH. split; intros s; simpl; apply eval_sequence_refines, IH.
  - intros l r IHl IHr. repeat split; intros s; simpl;
      (apply refines_bind; [apply operands_refines; assumption |]);
      intros; destruct_triple; cbv beta iota; refines_tail.
  - intros l r IHl IHr. repeat split; intros s; simpl;
      (apply refines_bind; [apply operands_refines; assumption |]);
      intros; destruct_triple; cbv beta iota; refines_tail.
  - intros l r IHl IHr. repeat split; intros s; simpl;
      (apply refines_bind; [apply operands_refines; assumption |]);
      intros; destruct_triple; cbv beta iota; refines_tail.
  - intros c e1 e2 IHc IH1 IH2 s. simpl.
    apply refines_bind; [apply IHc |]. intros [[cv ct] s1].
    destruct ct; try apply refines_refl.
    destruct (truthy cv); [apply IH1 | apply IH2].
  - intros c b IHc IHb s. simpl.
    apply refines_bind; [apply IHc |]. intros [[cv ct] s1].
    destruct ct; try apply refines_refl.
    apply while_loop_refines; assumption.
Qed.

(** An evaluation that ends has one outcome, whatever the fuel. *)
Lemma evaluates_deterministic expression state out r1 o1 r2 o2 :
  evaluates expression state out r1 o1 ->
  evaluates expression state out r2 o2 ->
  r1 = r2 /\ o1 = o2.
Proof.
  intros (n1 & H1 & Hne1) (n2 & H2 & Hne2).
  pose proof (evaluate_fuel_mono n1 (Nat.max n1 n2) (Nat.le_max_l _ _)
                expression state out r1 o1 H1 Hne1) as E1.
  pose proof (evaluate_fuel_mono n2 (Nat.max n1 n2) (Nat.le_max_r _ _)
                expression state out r2 o2 H2 Hne2) as E2.
  rewrite E1 in E2. inv E2. auto.
Qed.

(** * Further properties of the interpreter *)

(** ** The environment, continued *)

(** X1.  A look-up finds a binding exactly for the names that occur along
    the chain: [get_value] is [None] if and only if the name is bound
    nowhere. *)
Theorem get_value_None_iff (e : State) (m : string) :
  get_value e m = None <-> ~ In m (bound_names e).
Proof.
  split.
  - intros H Hin. apply get_value_bound in Hin. destruct Hin as [b Hb]. congruence.
  - apply get_value_unbound.
Qed.

Lemma same_lookups_set_value (e e' : State) n v t :
  same_lookups e e' -> same_lookups (set_value e n v t) (set_value e' n v t).
Proof. intros H m. simpl. destruct (String.eqb n m); [reflexivity | apply H]. Qed.

(** X2.  What look-ups can see of a chain.  A binding shadowed by a later
    binding of the same name is invisible; bindings of two different names
    can be made in either order; a [copy] answers as the original and shares
    its [next_state]; and extending two indistinguishable states by the same
    binding keeps them indistinguishable. *)
Theorem lookups_observe_latest_binding (e : State) :
  (forall n v1 t1 v2 t2,
     same_lookups (set_value (set_value e n v1 t1) n v2 t2) (set_value e n v2 t2)) /\
  (forall n m v t w u, n <> m ->
     same_lookups (set_value (set_value e n v t) m w u)
                  (set_value (set_value e m w u) n v t)) /\
  (same_lookups (copy e) e /\ next_state (copy e) = next_state e) /\
  (forall e' n v t, same_lookups e e' ->
     same_lookups (set_value e n v t) (set_value e' n v t)).
Proof.
  split; [| split; [| split]].
  - intros n v1 t1 v2 t2 m. simpl. destruct (String.eqb n m); reflexivity.
  - intros n m v t w u Hne k. simpl.
    destruct (String.eqb m k) eqn:Em, (String.eqb n k) eqn:En; try reflexivity.
    apply String.eqb_eq in Em, En. congruence.
  - destruct e as [| name [v t] next]; split; try reflexivity; intros m; reflexivity.
  - intros e' n v t H. apply same_lookups_set_value, H.
Qed.

(** Shadowing and commuting at work. *)
Lemma lookups_observe_latest_binding_witness :
  get_value (set_value (set_value (set_value EmptyState "x" (PyInt 1) Integer)
                          "y" (PyBool true) Boolean) "x" (PyInt 2) Integer) "y" =
  get_value (set_value (set_value (set_value EmptyState "x" (PyInt 1) Integer)
                          "x" (PyInt 2) Integer) "y" (PyBool true) Boolean) "y".
Proof.
  apply (proj1 (proj2 (lookups_observe_latest_binding
                         (set_value EmptyState "x" (PyInt 1) Integer)))
               "y"%string "x"%string (PyBool true) Boolean (PyInt 2) Integer).
  discriminate.
Defined.

(** ** Which bindings an evaluation adds *)

Lemma assign_steps_in_incl names names' s s' :
  incl names names' -> assign_steps_in names s s' -> assign_steps_in names' s s'.
Proof.
  intros Hi H. induction H; [constructor |].
  apply assign_steps_in_snoc; auto.
Qed.

Lemma assign_steps_in_trans names s1 s2 s3 :
  assign_steps_in names s1 s2 -> assign_steps_in names s2 s3 ->
  assign_steps_in names s1 s3.
Proof.
  intros H12 H23. induction H23; [assumption |].
  apply assign_steps_in_snoc; auto.
Qed.

Lemma steps_only_in_incl names names' m :
  incl names names' -> steps_only_in names m -> steps_only_in names' m.
Proof.
  intros Hi H s out v t s' out' E.
  eapply assign_steps_in_incl; [exact Hi | eapply H, E].
Qed.

Lemma eval_sequence_steps_in eval exprs :
  Forall (fun e => steps_only_in (assigned_names e) (eval e)) exprs ->
  forall last,
    steps_only_in (flat_map assigned_names exprs) (eval_sequence eval exprs last).
Proof.
  induction 1 as [| e es He _ IH]; intros last s out v t s' out' H.
  - rewrite eval_sequence_nil in H. peel H. constructor.
  - rewrite eval_sequence_cons in H. peel H. simpl.
    eapply assign_steps_in_trans.
    + eapply assign_steps_in_incl; [apply incl_appl, incl_refl | eapply He; eassumption].
    + eapply assign_steps_in_incl; [apply incl_appr, incl_refl | eapply IH; eassumption].
Qed.

Lemma while_loop_steps_in names eval_body eval_condition :
  steps_only_in names eval_body -> steps_only_in names eval_condition ->
  forall fuel cv ct s out v t s' out',
    while_loop eval_body eval_condition fuel cv ct s out = (Return (v, t, s'), out') ->
    assign_steps_in names s s'.
Proof.
  intros Hb Hc. induction fuel as [| n IH]; intros cv ct s out v t s' out' H;
    rewrite while_loop_eq in H; peel H; try constructor.
  eapply assign_steps_in_trans; [eapply Hb; eassumption |].
  eapply assign_steps_in_trans; [eapply Hc; eassumption |].
  eapply IH; eassumption.
Qed.

Lemma operands_steps_in nl nr eval_left eval_right state out lv lt rv s2 o2 :
  steps_only_in nl eval_left -> steps_only_in nr eval_right ->
  operands eval_left eval_right state out = (Return (lv, lt, rv, s2), o2) ->
  assign_steps_in (nl ++ nr) state s2.
Proof.
  intros Hl Hr H. apply operands_Return in H. destruct H as (s1 & o1 & H1 & H2).
  eapply assign_steps_in_trans.
  - eapply assign_steps_in_incl; [apply incl_appl, incl_refl | eapply Hl; eassumption].
  - eapply assign_steps_in_incl; [apply incl_appr, incl_refl | eapply Hr; eassumption].
Qed.

Ltac binary_steps_in H IHl IHr :=
  simpl in H; bind_inv H;
  match goal with
  | E : operands _ _ _ _ = _ |- _ =>
      apply (operands_steps_in _ _ _ _ _ _ _ _ _ _ _ IHl IHr) in E
  end;
  try (bind_inv H;
       match goal with
       | E : relational _ _ _ _ _ _ = _ |- _ => apply relational_Return in E; subst
       end);
  peel H; assumption.

Lemma evaluate_steps_in fuel expression :
  steps_only_in (assigned_names expression) (evaluate fuel expression).
Proof.
  revert expression.
  apply (Expr_ind' (fun e => steps_only_in (assigned_names e) (evaluate fuel e))).
  - repeat split; intros; intros s out v t s' out' H; simpl in H; peel H;
      constructor.
  - intros e IH.
    repeat split; intros; intros s out v t s' out' H; simpl in H; peel H.
    + eapply IH; eassumption.
    + eapply IH; eassumption.
    + simpl. apply assign_steps_in_snoc.
      * eapply assign_steps_in_incl; [apply incl_tl, incl_refl | eapply IH; eassumption].
      * left. reflexivity.
      * assumption.
  - intros es IH.
    split; intros s out v t s' out' H; simpl in H;
      eapply eval_sequence_steps_in; eassumption.
  - intros l r IHl IHr.
    repeat split; intros s out v t s' out' H; binary_steps_in H IHl IHr.
  - intros l r IHl IHr.
    repeat split; intros s out v t s' out' H; binary_steps_in H IHl IHr.
  - intros l r IHl IHr.
    repeat split; intros s out v t s' out' H; binary_steps_in H IHl IHr.
  - intros c e1 e2 IHc IH1 IH2 s out v t s' out' H; simpl in H. peel H; simpl.
    + eapply assign_steps_in_trans.
      * eapply assign_steps_in_incl; [apply incl_appl, incl_refl | eapply IHc; eassumption].
      * eapply assign_steps_in_incl; [| eapply IH1; eassumption].
        apply incl_appr, incl_appl, incl_refl.
    + eapply assign_steps_in_trans.
      * eapply assign_steps_in_incl; [apply incl_appl, incl_refl | eapply IHc; eassumption].
      * eapply assign_steps_in_incl; [| eapply IH2; eassumption].
        apply incl_appr, incl_appr, incl_refl.
  - intros c b IHc IHb s out v t s' out' H; simpl in H. bind_inv H.
    destruct t0; try (peel H; fail). simpl.
    eapply assign_steps_in_trans.
    + eapply assign_steps_in_incl; [apply incl_appl, incl_refl | eapply IHc; eassumption].
    + eapply while_loop_steps_in; [| | eassumption].
      * eapply steps_only_in_incl; [apply incl_appr, incl_refl | exact IHb].
      * eapply steps_only_in_incl; [apply incl_appl, incl_refl | exact IHc].
Qed.

Lemma assign_steps_in_is_tail names s s' : assign_steps_in names s s' -> is_tail s s'.
Proof. induction 1; [constructor |]. constructor. assumption. Qed.

Lemma assign_steps_in_frame names s s' x :
  assign_steps_in names s s' -> ~ In x names -> get_value s' x = get_value s x.
Proof.
  intros H Hx. induction H; [reflexivity |].
  rewrite get_value_set_value_other; [assumption |]. congruence.
Qed.

Lemma assign_steps_in_bound names s s' x :
  assign_steps_in names s s' ->
  In x (bound_names s') -> In x (bound_names s) \/ In x names.
Proof.
  intros H. induction H; [auto |]. simpl. intros [<- | Hin]; auto.
Qed.

Lemma assign_steps_in_nil s s' : assign_steps_in [] s s' -> s' = s.
Proof. induction 1; [reflexivity | contradiction]. Qed.

(** X3.  An evaluation that returns leaves the chain it started from in
    place, as a tail of the final chain, and does not change what a look-up
    answers for any name that is not the target of an [Assign] node of the
    expression. *)
Theorem evaluate_frame fuel e s out v t s' out' :
  evaluate fuel e s out = (Return (v, t, s'), out') ->
  is_tail s s' /\
  forall x, ~ In x (assigned_names e) -> get_value s' x = get_value s x.
Proof.
  intros H. apply evaluate_steps_in in H. split.
  - eapply assign_steps_in_is_tail, H.
  - intros x Hx. eapply assign_steps_in_frame; eassumption.
Qed.

(** [y = 1; x = y + 1] leaves [z] as it was. *)
Lemma evaluate_frame_witness :
  is_tail (set_value EmptyState "z" (PyStr "kept") String)
    (set_value (set_value (set_value EmptyState "z" (PyStr "kept") String)
                  "y" (PyInt 1) Integer) "x" (PyInt 2) Integer) /\
  get_value
    (set_value (set_value (set_value EmptyState "z" (PyStr "kept") String)
                  "y" (PyInt 1) Integer) "x" (PyInt 2) Integer) "z" =
    Some (PyStr "kept", String).
Proof.
  pose (s := set_value EmptyState "z" (PyStr "kept") String).
  pose (s' := set_value (set_value s "y" (PyInt 1) Integer) "x" (PyInt 2) Integer).
  destruct (evaluate_frame 0
              (Sequence [Assign "y" (IntLiteral 1);
                         Assign "x" (Add (Variable_ "y") (IntLiteral 1))])
              s [] (PyInt 2) Integer s' [] eq_refl) as [Ht Hf].
  split; [exact Ht |].
  change (get_value s' "z" = Some (PyStr "kept", String)).
  rewrite Hf; [reflexivity |].
  simpl. intros [H | [H | []]]; discriminate.
Defined.

(** X4.  The names bound after an evaluation are names bound before or
    targets of [Assign] nodes of the expression; after a run from the empty
    state, every bound name is the target of some [Assign] of the
    program. *)
Theorem bound_names_are_assigned :
  (forall fuel e s out v t s' out' x,
     evaluate fuel e s out = (Return (v, t, s'), out') ->
     In x (bound_names s') ->
     In x (bound_names s) \/ In x (assigned_names e)) /\
  (forall fuel program out v t s' out' x,
     run_stimpl fuel program out = (Return (v, t, s'), out') ->
     In x (bound_names s') -> In x (assigned_names program)).
Proof.
  split.
  - intros fuel e s out v t s' out' x H.
    eapply assign_steps_in_bound, evaluate_steps_in, H.
  - intros fuel program out v t s' out' x H Hin.
    apply evaluate_steps_in in H.
    destruct (assign_steps_in_bound _ _ _ _ H Hin) as [Hb | Hx];
      [destruct Hb | exact Hx].
Qed.

(** After [count_to_three], whatever is bound is a target of its
    [Assign]s, that is [i]. *)
Lemma bound_names_are_assigned_witness :
  match fst (run_stimpl 3 count_to_three []) with
  | Return (_, _, s') => forall x, In x (bound_names s') -> x = "i"%string
  | _ => False
  end.
Proof.
  destruct (run_stimpl 3 count_to_three []) as [[[[v t] s'] | e |] out'] eqn:E;
    try (vm_compute in E; discriminate E).
  simpl. intros x Hin.
  pose proof (proj2 bound_names_are_assigned 3%nat count_to_three [] v t s' out' x E Hin)
    as Hx.
  unfold count_to_three, count_loop in Hx. simpl in Hx.
  destruct Hx as [Hx | [Hx | []]]; congruence.
Defined.

(** X5.  An expression with no [Assign] node returns the state it was
    given. *)
Theorem assign_free_keeps_state fuel e s out v t s' out' :
  assigned_names e = [] ->
  evaluate fuel e s out = (Return (v, t, s'), out') ->
  s' = s.
Proof.
  intros Hfree H. apply evaluate_steps_in in H. rewrite Hfree in H.
  apply assign_steps_in_nil, H.
Qed.

(** [if x < 3 then print(x) else x * 2] reads [x] and leaves the state
    alone. *)
Lemma assign_free_keeps_state_witness :
  match fst (evaluate 0 (If (Lt (Variable_ "x") (IntLiteral 3))
                            (Print (Variable_ "x"))
                            (Multiply (Variable_ "x") (IntLiteral 2)))
               (set_value EmptyState "x" (PyInt 1) Integer) []) with
  | Return (_, _, s') => s' = set_value EmptyState "x" (PyInt 1) Integer
  | _ => False
  end.
Proof.
  pose (s := set_value EmptyState "x" (PyInt 1) Integer).
  pose (e := If (Lt (Variable_ "x") (IntLiteral 3))
                (Print (Variable_ "x"))
                (Multiply (Variable_ "x") (IntLiteral 2))).
  change (match fst (evaluate 0 e s []) with
          | Return (_, _, s') => s' = s
          | _ => False
          end).
  destruct (evaluate 0 e s []) as [[[[v t] s'] | err |] out'] eqn:E;
    try (vm_compute in E; discriminate E).
  simpl. apply (assign_free_keeps_state 0 e s [] v t s' out' eq_refl E).
Defined.

(** ** Output *)

Lemma bind_cases {A B : Type} (m : M A) (k : A -> M B) out r out' :
  bind m k out = (r, out') ->
  (exists a o1, m out = (Return a, o1) /\ k a o1 = (r, out')) \/
  (exists e, m out = (Raise e, out') /\ r = Raise e) \/
  (m out = (OutOfFuel, out') /\ r = OutOfFuel).
Proof.
  unfold bind. destruct (m out) as [[a | e |] o1]; intros H.
  - left. eauto.
  - inv H. right. left. eauto.
  - inv H. right. right. auto.
Qed.

Lemma appends_ret {A : Type} (a : A) : appends (ret a).
Proof.
  intros out r out' H. unfold ret in *. inv H. exists [].
  split; [symmetry; apply app_nil_r |]. intros out0. rewrite app_nil_r. reflexivity.
Qed.

Lemma appends_raise {A : Type} (e : Error) : appends (@raise A e).
Proof.
  intros out r out' H. unfold raise in *. inv H. exists [].
  split; [symmetry; apply app_nil_r |]. intros out0. rewrite app_nil_r. reflexivity.
Qed.

Lemma appends_out_of_fuel {A : Type} : appends (@out_of_fuel A).
Proof.
  intros out r out' H. unfold out_of_fuel in *. inv H. exists [].
  split; [symmetry; apply app_nil_r |]. intros out0. rewrite app_nil_r. reflexivity.
Qed.

Lemma appends_lift {A : Type} (h : host A) : appends (lift h).
Proof. destruct h; [apply appends_ret | apply appends_raise]. Qed.

Lemma appends_print (l : Line) : appends (print l).
Proof.
  intros out r out' H. unfold print in *. inv H. exists [l]. split; reflexivity.
Qed.

Lemma appends_bind {A B : Type} (m : M A) (k : A -> M B) :
  appends m -> (forall a, appends (k a)) -> appends (bind m k).
Proof.
  intros Hm Hk out r out' H.
  destruct (bind_cases _ _ _ _ _ H) as [(a & o1 & E1 & E2) | [(e & E1 & ->) | (E1 & ->)]].
  - destruct (Hm _ _ _ E1) as (l1 & -> & F1).
    destruct (Hk a _ _ _ E2) as (l2 & -> & F2).
    exists (l1 ++ l2). split; [symmetry; apply app_assoc |].
    intros out0. unfold bind. rewrite F1, F2, app_assoc. reflexivity.
  - destruct (Hm _ _ _ E1) as (l1 & -> & F1). exists l1. split; [reflexivity |].
    intros out0. unfold bind. rewrite F1. reflexivity.
  - destruct (Hm _ _ _ E1) as (l1 & -> & F1). exists l1. split; [reflexivity |].
    intros out0. unfold bind. rewrite F1. reflexivity.
Qed.

Ltac appends_tail :=
  repeat first
    [ apply appends_ret | apply appends_raise | apply appends_out_of_fuel
    | apply appends_lift | apply appends_print
    | apply appends_bind; [| intros ?a; destruct_triple; cbv beta iota ]
    | match goal with
      | |- appends (match ?x with _ => _ end) => destruct x
      end ].

Lemma operands_appends el er s :
  (forall s, appends (el s)) -> (forall s, appends (er s)) ->
  appends (operands el er s).
Proof.
  intros Hl Hr. unfold operands.
  apply appends_bind; [apply Hl |]. intros [[lv lt] s1].
  apply appends_bind; [apply Hr |]. intros [[rv rt] s2]. appends_tail.
Qed.

Lemma relational_appends op on_unit lv lt rv : appends (relational op on_unit lv lt rv).
Proof. unfold relational. destruct lt; appends_tail. Qed.

Lemma eval_sequence_appends eval exprs :
  Forall (fun e => forall s, appends (eval e s)) exprs ->
  forall last s, appends (eval_sequence eval exprs last s).
Proof.
  induction 1 as [| e es He _ IH]; intros last s.
  - rewrite eval_sequence_nil. destruct last as [[v t] |]; appends_tail.
  - rewrite eval_sequence_cons.
    apply appends_bind; [apply He |]. intros [[v t] s1]. apply IH.
Qed.

Lemma while_loop_appends eb ec :
  (forall s, appends (eb s)) -> (forall s, appends (ec s)) ->
  forall n cv ct s, appends (while_loop eb ec n cv ct s).
Proof.
  intros Hb Hc. induction n as [| n IH]; intros cv ct s;
    rewrite while_loop_eq; destruct (truthy cv); appends_tail;
    first [apply Hb | apply Hc | apply IH].
Qed.

Lemma evaluate_appends fuel expression state :
  appends (evaluate fuel expression state).
Proof.
  revert expression state.
  apply (Expr_ind' (fun e => forall s, appends (evaluate fuel e s))).
  - repeat split; intros; simpl; appends_tail.
  - intros e IH. repeat split; intros; simpl;
      (apply appends_bind; [apply IH |]); intros; destruct_triple;
      cbv beta iota zeta; appends_tail.
  - intros es IH. split; intros s; simpl; apply eval_sequence_appends, IH.
  - intros l r IHl IHr. repeat split; intros s; simpl;
      (apply appends_bind; [apply operands_appends; assumption |]);
      intros; destruct_triple; cbv beta iota; appends_tail.
  - intros l r IHl IHr. repeat split; intros s; simpl;
      (apply appends_bind; [apply operands_appends; assumption |]);
      intros; destruct_triple; cbv beta iota; appends_tail.
  - intros l r IHl IHr. repeat split; intros s; simpl;
      (apply appends_bind; [apply operands_appends; assumption |]);
      intros; destruct_triple; cbv beta iota;
      (apply appends_bind; [apply relational_appends |]); intros; appends_tail.
  - intros c e1 e2 IHc IH1 IH2 s. simpl.
    apply appends_bind; [apply IHc |]. intros [[cv ct] s1].
    destruct ct; try apply appends_raise.
    destruct (truthy cv); [apply IH1 | apply IH2].
  - intros c b IHc IHb s. simpl.
    apply appends_bind; [apply IHc |]. intros [[cv ct] s1].
    destruct ct; try apply appends_raise.
    apply while_loop_appends; assumption.
Qed.

(** X6.  Output is append-only and write-only.  Whatever the outcome of an
    evaluation (a triple, an error of any kind, or running out of fuel), the
    lines printed before it are still there, followed by the lines it
    printed; and the outcome and those lines are the same whatever had been
    printed before. *)
Theorem output_is_append_only fuel e s out r out' :
  evaluate fuel e s out = (r, out') ->
  exists lines,
    out' = out ++ lines /\
    forall out0, evaluate fuel e s out0 = (r, out0 ++ lines).
Proof. apply evaluate_appends. Qed.

(** [print(1); print(y)] with [y] unbound: the first line stays. *)
Lemma output_is_append_only_witness :
  exists lines,
    [UnitLine; ValueLine (PyInt 1)] = [UnitLine] ++ lines /\
    forall out0,
      evaluate 0 (Sequence [Print (IntLiteral 1); Print (Variable_ "y")])
        EmptyState out0 = (Raise InterpSyntaxError, out0 ++ lines).
Proof.
  apply (output_is_append_only 0
           (Sequence [Print (IntLiteral 1); Print (Variable_ "y")])
           EmptyState [UnitLine] (Raise InterpSyntaxError)
           [UnitLine; ValueLine (PyInt 1)] eq_refl).
Defined.

Lemma silent_bind {A B : Type} (m : M A) (k : A -> M B) :
  silent m -> (forall a, silent (k a)) -> silent (bind m k).
Proof.
  intros Hm Hk out r out' H.
  destruct (bind_cases _ _ _ _ _ H) as [(a & o1 & E1 & E2) | [(e & E1 & _) | (E1 & _)]].
  - apply Hm in E1. subst. eapply Hk, E2.
  - eapply Hm, E1.
  - eapply Hm, E1.
Qed.

Lemma silent_ret {A : Type} (a : A) : silent (ret a).
Proof. intros out r out' H. unfold ret in H. inv H. reflexivity. Qed.

Lemma silent_raise {A : Type} (e : Error) : silent (@raise A e).
Proof. intros out r out' H. unfold raise in H. inv H. reflexivity. Qed.

Lemma silent_out_of_fuel {A : Type} : silent (@out_of_fuel A).
Proof. intros out r out' H. unfold out_of_fuel in H. inv H. reflexivity. Qed.

Lemma silent_lift {A : Type} (h : host A) : silent (lift h).
Proof. destruct h; [apply silent_ret | apply silent_raise]. Qed.

Ltac silent_tail :=
  repeat first
    [ apply silent_ret | apply silent_raise | apply silent_out_of_fuel
    | apply silent_lift
    | apply silent_bind; [| intros ?a; destruct_triple; cbv beta iota ]
    | match goal with
      | |- silent (match ?x with _ => _ end) => destruct x
      end ].

Lemma operands_silent el er s :
  (forall s, silent (el s)) -> (forall s, silent (er s)) ->
  silent (operands el er s).
Proof.
  intros Hl Hr. unfold operands.
  apply silent_bind; [apply Hl |]. intros [[lv lt] s1].
  apply silent_bind; [apply Hr |]. intros [[rv rt] s2]. silent_tail.
Qed.

Lemma relational_silent op on_unit lv lt rv : silent (relational op on_unit lv lt rv).
Proof. unfold relational. destruct lt; silent_tail. Qed.

Lemma eval_sequence_silent eval exprs :
  Forall (fun e => forall s, silent (eval e s)) exprs ->
  forall last s, silent (eval_sequence eval exprs last s).
Proof.
  induction 1 as [| e es He _ IH]; intros last s.
  - rewrite eval_sequence_nil. destruct last as [[v t] |]; silent_tail.
  - rewrite eval_sequence_cons.
    apply silent_bind; [apply He |]. intros [[v t] s1]. apply IH.
Qed.

Lemma while_loop_silent eb ec :
  (forall s, silent (eb s)) -> (forall s, silent (ec s)) ->
  forall n cv ct s, silent (while_loop eb ec n cv ct s).
Proof.
  intros Hb Hc. induction n as [| n IH]; intros cv ct s;
    rewrite while_loop_eq; destruct (truthy cv); silent_tail;
    first [apply Hb | apply Hc | apply IH].
Qed.

Lemma forallb_Forall_impl {A : Type} (p : A -> bool) (P : A -> Prop) (l : list A) :
  Forall (fun a => p a = true -> P a) l -> forallb p l = true -> Forall P l.
Proof.
  induction 1 as [| a l Ha _ IH]; simpl; intros H; constructor;
    apply andb_true_iff in H; destruct H; auto.
Qed.

Lemma evaluate_silent fuel expression :
  print_free expression = true -> forall state, silent (evaluate fuel expression state).
Proof.
  unfold print_free. revert expression.
  apply (Expr_ind'
           (fun e => all_nodes (fun n => negb (is_Print n)) e = true ->
                     forall s, silent (evaluate fuel e s))).
  - repeat split; intros; simpl; silent_tail.
  - intros e IH. repeat split.
    + intros H. simpl in H. discriminate H.
    + intros H s. apply andb_true_iff in H. destruct H as [_ H]. simpl.
      apply silent_bind; [apply IH, H |]. intros [[v t] s1]. silent_tail.
    + intros x H s. apply andb_true_iff in H. destruct H as [_ H]. simpl.
      apply silent_bind; [apply IH, H |]. intros [[v t] s1].
      cbv beta iota zeta. silent_tail.
  - intros es IH. split; intros H s; apply andb_true_iff in H; destruct H as [_ H];
      simpl; apply eval_sequence_silent;
      apply (forallb_Forall_impl _ _ _ IH H).
  - intros l r IHl IHr. repeat split; intros H s;
      apply andb_true_iff in H; destruct H as [_ H];
      apply andb_true_iff in H; destruct H as [Hl Hr]; simpl;
      (apply silent_bind; [apply operands_silent; auto |]);
      intros; destruct_triple; cbv beta iota; silent_tail.
  - intros l r IHl IHr. repeat split; intros H s;
      apply andb_true_iff in H; destruct H as [_ H];
      apply andb_true_iff in H; destruct H as [Hl Hr]; simpl;
      (apply silent_bind; [apply operands_silent; auto |]);
      intros; destruct_triple; cbv beta iota; silent_tail.
  - intros l r IHl IHr. repeat split; intros H s;
      apply andb_true_iff in H; destruct H as [_ H];
      apply andb_true_iff in H; destruct H as [Hl Hr]; simpl;
      (apply silent_bind; [apply operands_silent; auto |]);
      intros; destruct_triple; cbv beta iota;
      (apply silent_bind; [apply relational_silent |]); intros; silent_tail.
  - intros c e1 e2 IHc IH1 IH2 H s.
    apply andb_true_iff in H; destruct H as [_ H].
    apply andb_true_iff in H; destruct H as [H H2].
    apply andb_true_iff in H; destruct H as [Hc H1]. simpl.
    apply silent_bind; [apply IHc, Hc |]. intros [[cv ct] s1].
    destruct ct; try apply silent_raise.
    destruct (truthy cv); [apply IH1, H1 | apply IH2, H2].
  - intros c b IHc IHb H s.
    apply andb_true_iff in H; destruct H as [_ H].
    apply andb_true_iff in H; destruct H as [Hc Hb]. simpl.
    apply silent_bind; [apply IHc, Hc |]. intros [[cv ct] s1].
    destruct ct; try apply silent_raise.
    apply while_loop_silent; auto.
Qed.

(** X7.  The only source of output is [Print]: an expression with no
    [Print] node leaves the output as it found it, whatever the outcome
    (triple, error, out of fuel). *)
Theorem print_free_is_silent fuel e s out r out' :
  print_free e = true ->
  evaluate fuel e s out = (r, out') ->
  out' = out.
Proof. intros Hp H. eapply evaluate_silent; eassumption. Qed.

(** The counting loop prints nothing. *)
Lemma print_free_is_silent_witness :
  snd (run_stimpl 3 count_to_three [UnitLine]) = [UnitLine].
Proof.
  destruct (run_stimpl 3 count_to_three [UnitLine]) as [r out'] eqn:E.
  apply (print_free_is_silent 3 count_to_three EmptyState [UnitLine] r out' eq_refl E).
Defined.



(** ** Variables *)

(** X9.  A variable can be read exactly when its name is bound somewhere
    along the chain: then [Variable_] returns the pair [get_value] finds and
    the state and output it was given; otherwise it raises
    [InterpSyntaxError], again leaving the output alone. *)
Theorem variable_read_iff_bound fuel x s out :
  (In x (bound_names s) <->
   exists v t, get_value s x = Some (v, t) /\
               evaluate fuel (Variable_ x) s out = (Return (v, t, s), out)) /\
  (~ In x (bound_names s) <->
   evaluate fuel (Variable_ x) s out = (Raise InterpSyntaxError, out)).
Proof.
  simpl. split; split.
  - intros Hin. apply get_value_bound in Hin. destruct Hin as [[v t] Hg].
    exists v, t. rewrite Hg. auto.
  - intros (v & t & Hg & _).
    destruct (in_dec string_dec x (bound_names s)) as [Hin | Hno]; [exact Hin |].
    apply get_value_unbound in Hno. congruence.
  - intros Hno. rewrite (get_value_unbound _ _ Hno). reflexivity.
  - intros H Hin. apply get_value_bound in Hin. destruct Hin as [[v t] Hg].
    rewrite Hg in H. discriminate H.
Qed.

(** X10.  A successful [Assign] to [x] is what a later read of [x] returns,
    immediately after it and also after any expression evaluated in between
    that has no [Assign] to [x]. *)
Theorem assign_then_read fuel x e s out v t s1 o1 :
  evaluate fuel (Assign x e) s out = (Return (v, t, s1), o1) ->
  evaluate fuel (Variable_ x) s1 o1 = (Return (v, t, s1), o1) /\
  forall e2 v2 t2 s2 o2,
    evaluate fuel e2 s1 o1 = (Return (v2, t2, s2), o2) ->
    ~ In x (assigned_names e2) ->
    evaluate fuel (Variable_ x) s2 o2 = (Return (v, t, s2), o2).
Proof.
  intros H. simpl in H. peel H.
  assert (Hg : get_value (set_value s0 x v t) x = Some (v, t))
    by apply get_value_set_value_same.
  split.
  - simpl evaluate at 1. cbv beta. simpl in Hg. simpl. rewrite String.eqb_refl.
    reflexivity.
  - intros e2 v2 t2 s2 o2 H2 Hx.
    apply evaluate_steps_in in H2.
    pose proof (assign_steps_in_frame _ _ _ x H2 Hx) as Hf.
    rewrite Hg in Hf.
    change (evaluate fuel (Variable_ x) s2 o2) with
      (match get_value s2 x with
       | None => raise InterpSyntaxError
       | Some (variable_value, variable_type) =>
           ret (variable_value, variable_type, s2)
       end o2).
    rewrite Hf. reflexivity.
Qed.

(** [x = 2 + 3] then [y = x * 2], then [x] reads 5. *)
Lemma assign_then_read_witness :
  evaluate 0 (Variable_ "x")
    (set_value (set_value EmptyState "x" (PyInt 5) Integer) "y" (PyInt 10) Integer) [] =
    (Return (PyInt 5, Integer,
             set_value (set_value EmptyState "x" (PyInt 5) Integer) "y" (PyInt 10) Integer),
     []).
Proof.
  apply (proj2 (assign_then_read 0 "x" (Add (IntLiteral 2) (IntLiteral 3)) EmptyState []
                  (PyInt 5) Integer (set_value EmptyState "x" (PyInt 5) Integer) []
                  eq_refl)
               (Assign "y" (Multiply (Variable_ "x") (IntLiteral 2)))
               (PyInt 10) Integer
               (set_value (set_value EmptyState "x" (PyInt 5) Integer)
                  "y" (PyInt 10) Integer) [] eq_refl).
  simpl. intros [H | []]. discriminate H.
Defined.

(** ** Sequences *)

Lemma eval_sequence_last_irrelevant eval exprs last last' state :
  exprs <> [] ->
  eval_sequence eval exprs last state = eval_sequence eval exprs last' state.
Proof.
  destruct exprs as [| e es]; [congruence |]. intros _.
  rewrite !eval_sequence_cons. reflexivity.
Qed.

Lemma bind_ret_triple (m : M Triple) out :
  bind m (fun x => match x with (v, t, s) => ret (v, t, s) end) out = m out.
Proof.
  unfold bind, ret. destruct (m out) as [[[[v t] s] | e |] o]; reflexivity.
Qed.

Lemma eval_sequence_app_Return eval es1 es2 last s out v t s1 o1 :
  eval_sequence eval es1 last s out = (Return (v, t, s1), o1) ->
  eval_sequence eval (es1 ++ es2) last s out =
  eval_sequence eval es2 (Some (v, t)) s1 o1.
Proof.
  revert last s out. induction es1 as [| e es IH]; intros last s out H.
  - rewrite eval_sequence_nil in H. destruct last as [[v0 t0] |]; peel H. reflexivity.
  - simpl app. rewrite eval_sequence_cons in *. bind_inv H.
    rewrite (bind_of_Return _ _ _ _ _ E). cbv beta iota. apply IH, H.
Qed.

Lemma eval_sequence_app_Raise eval es1 es2 last s out err o1 :
  es1 <> [] ->
  eval_sequence eval es1 last s out = (Raise err, o1) ->
  eval_sequence eval (es1 ++ es2) last s out = (Raise err, o1).
Proof.
  revert last s out. induction es1 as [| e es IH]; intros last s out Hne H;
    [congruence |].
  simpl app. rewrite eval_sequence_cons in *.
  destruct (bind_cases _ _ _ _ _ H) as [(a & o & E1 & E2) | [(e' & E1 & E2) | (E1 & E2)]].
  - destruct a as [[v t] s1]. rewrite (bind_of_Return _ _ _ _ _ E1). cbv beta iota.
    destruct es as [| e2 es]; [rewrite eval_sequence_nil in E2; peel E2 |].
    apply IH; [discriminate | exact E2].
  - inv E2. apply bind_of_Raise, E1.
  - discriminate E2.
Qed.

(** X11.  How sequences compose.  [Program] is evaluated as [Sequence]; a
    sequence of one expression is that expression; a longer sequence is its
    first expression followed, in the state it leaves, by the sequence of
    the rest (the value and type of the first are dropped); and a sequence
    split in two non-empty parts runs the first part, then the second in
    the state the first left, while an error in the first part is the error
    of the whole and the second part is not evaluated. *)
Theorem sequence_composition fuel s out :
  (forall es, evaluate fuel (Program es) s out = evaluate fuel (Sequence es) s out) /\
  (forall e, evaluate fuel (Sequence [e]) s out = evaluate fuel e s out) /\
  (forall e e' es,
     evaluate fuel (Sequence (e :: e' :: es)) s out =
     ('(_, _, s1) <- evaluate fuel e s ;; evaluate fuel (Sequence (e' :: es)) s1) out) /\
  (forall es1 es2 v t s1 o1,
     es2 <> [] ->
     evaluate fuel (Sequence es1) s out = (Return (v, t, s1), o1) ->
     evaluate fuel (Sequence (es1 ++ es2)) s out = evaluate fuel (Sequence es2) s1 o1) /\
  (forall es1 es2 err o1,
     es1 <> [] ->
     evaluate fuel (Sequence es1) s out = (Raise err, o1) ->
     evaluate fuel (Sequence (es1 ++ es2)) s out = (Raise err, o1)).
Proof.
  split; [| split; [| split; [| split]]].
  - reflexivity.
  - intros e. simpl. rewrite eval_sequence_cons.
    unfold bind. destruct (evaluate fuel e s out) as [[[[v t] s1] | err |] o];
      reflexivity.
  - intros e e' es. simpl. rewrite eval_sequence_cons.
    unfold bind. destruct (evaluate fuel e s out) as [[[[v t] s1] | err |] o];
      reflexivity.
  - intros es1 es2 v t s1 o1 Hne H. simpl in *.
    rewrite (eval_sequence_app_Return _ _ _ _ _ _ _ _ _ _ H).
    apply (f_equal (fun m => m o1)).
    apply eval_sequence_last_irrelevant. exact Hne.
  - intros es1 es2 err o1 Hne H. simpl in *.
    apply eval_sequence_app_Raise; assumption.
Qed.

(** [x = 1; x = 2] then [x]: the whole is the second part run after the
    first; and [y; x = 1] stops at [y]. *)
Lemma sequence_composition_witness :
  evaluate 0 (Sequence ([Assign "x" (IntLiteral 1); Assign "x" (IntLiteral 2)]
                        ++ [Variable_ "x"])) EmptyState [] =
    evaluate 0 (Sequence [Variable_ "x"])
      (set_value (set_value EmptyState "x" (PyInt 1) Integer) "x" (PyInt 2) Integer) [] /\
  evaluate 0 (Sequence ([Variable_ "y"] ++ [Assign "x" (IntLiteral 1)])) EmptyState [] =
    (Raise InterpSyntaxError, []).
Proof.
  destruct (sequence_composition 0 EmptyState []) as (_ & _ & _ & Happ & Herr).
  split.
  - apply (Happ [Assign "x" (IntLiteral 1); Assign "x" (IntLiteral 2)]
                [Variable_ "x"] (PyInt 2) Integer); [discriminate | reflexivity].
  - apply (Herr [Variable_ "y"] [Assign "x" (IntLiteral 1)]);
      [discriminate | reflexivity].
Defined.

(** ** Binary nodes *)

Lemma operands_left_Raise eval_left eval_right state out e o1 :
  eval_left state out = (Raise e, o1) ->
  operands eval_left eval_right state out = (Raise e, o1).
Proof. intros H. unfold operands. apply bind_of_Raise, H. Qed.

(** X12.  The rules common to the twelve binary nodes.  The left operand is
    evaluated first and the right one in the state it leaves; an error of
    the left operand is the error of the node (the right one is not
    evaluated), and so is an error of the right operand; operands of
    different types raise [InterpTypeError]; and whenever the node returns,
    both operands returned, with one and the same type, and the state and
    output returned are those the right operand left. *)
Theorem binary_operand_rules (op : binop) fuel l r s out :
  (forall e o1,
     evaluate fuel l s out = (Raise e, o1) ->
     evaluate fuel (binary op l r) s out = (Raise e, o1)) /\
  (forall lv lt s1 o1 e o2,
     evaluate fuel l s out = (Return (lv, lt, s1), o1) ->
     evaluate fuel r s1 o1 = (Raise e, o2) ->
     evaluate fuel (binary op l r) s out = (Raise e, o2)) /\
  (forall lv lt s1 o1 rv rt s2 o2,
     evaluate fuel l s out = (Return (lv, lt, s1), o1) ->
     evaluate fuel r s1 o1 = (Return (rv, rt, s2), o2) ->
     lt <> rt ->
     evaluate fuel (binary op l r) s out = (Raise InterpTypeError, o2)) /\
  (forall v t s' out',
     evaluate fuel (binary op l r) s out = (Return (v, t, s'), out') ->
     exists lv lt s1 o1 rv,
       evaluate fuel l s out = (Return (lv, lt, s1), o1) /\
       evaluate fuel r s1 o1 = (Return (rv, lt, s'), out')).
Proof.
  split; [| split; [| split]].
  - intros e o1 H. destruct op; simpl;
      apply bind_of_Raise, operands_left_Raise, H.
  - intros lv lt s1 o1 e o2 Hl Hr. destruct op; simpl;
      apply bind_of_Raise; eapply operands_right_Raise; eassumption.
  - intros lv lt s1 o1 rv rt s2 o2 Hl Hr Hne.
    apply Type_eqb_neq in Hne.
    destruct op; simpl; apply bind_of_Raise;
      rewrite (operands_of_Return _ _ _ _ _ _ _ _ _ _ _ _ Hl Hr), Hne; reflexivity.
  - intros v t s' out' H.
    destruct op; simpl in H; bind_inv H;
      match goal with
      | E : operands _ _ _ _ = _ |- _ =>
          apply operands_Return in E; destruct E as (s1 & o1 & Hl & Hr)
      end;
      try (bind_inv H;
           match goal with
           | E : relational _ _ _ _ _ _ = _ |- _ => apply relational_Return in E; subst
           end);
      peel H; eauto 10.
Qed.

(** [1 + "a"], [1 < True], [y and True] with [y] unbound. *)
Lemma binary_operand_rules_witness :
  evaluate 0 (Add (IntLiteral 1) (StringLiteral "a")) EmptyState [] =
    (Raise InterpTypeError, []) /\
  evaluate 0 (Lt (IntLiteral 1) (BooleanLiteral true)) EmptyState [] =
    (Raise InterpTypeError, []) /\
  evaluate 0 (And (Variable_ "y") (BooleanLiteral true)) EmptyState [] =
    (Raise InterpSyntaxError, []).
Proof.
  split; [| split].
  - apply (proj1 (proj2 (proj2
             (binary_operand_rules OpAdd 0 (IntLiteral 1) (StringLiteral "a")
                EmptyState [])))
             (PyInt 1) Integer EmptyState [] (PyStr "a") String EmptyState []
             eq_refl eq_refl).
    discriminate.
  - apply (proj1 (proj2 (proj2
             (binary_operand_rules OpLt 0 (IntLiteral 1) (BooleanLiteral true)
                EmptyState [])))
             (PyInt 1) Integer EmptyState [] (PyBool true) Boolean EmptyState []
             eq_refl eq_refl).
    discriminate.
  - apply (proj1 (binary_operand_rules OpAnd 0 (Variable_ "y") (BooleanLiteral true)
                    EmptyState [])
             InterpSyntaxError [] eq_refl).
Defined.

Lemma evaluate_binary_operands fuel l r s out lv lt s1 o1 rv s2 o2 :
  evaluate fuel l s out = (Return (lv, lt, s1), o1) ->
  evaluate fuel r s1 o1 = (Return (rv, lt, s2), o2) ->
  operands (evaluate fuel l) (evaluate fuel r) s out = (Return (lv, lt, rv, s2), o2).
Proof.
  intros Hl Hr. rewrite (operands_of_Return _ _ _ _ _ _ _ _ _ _ _ _ Hl Hr).
  rewrite Type_eqb_refl. reflexivity.
Qed.

Ltac binary_forward Hl Hr :=
  simpl; unfold bind at 1;
  rewrite (evaluate_binary_operands _ _ _ _ _ _ _ _ _ _ _ _ Hl Hr).

(** X13.  Operand types a node does not accept.  When both operands return
    with one type [t]: [Add] raises [InterpTypeError] unless [t] is Integer,
    String or FloatingPoint; [Subtract] and [Multiply] unless it is Integer
    or FloatingPoint; [And] and [Or] unless it is Boolean; whatever the data
    are.  [Not] raises [InterpTypeError] on an operand that is not
    Boolean. *)
Theorem unsupported_operand_type fuel s out :
  (forall op l r lv t s1 o1 rv s2 o2,
     op <> OpDivide ->
     accepts op t = false ->
     evaluate fuel l s out = (Return (lv, t, s1), o1) ->
     evaluate fuel r s1 o1 = (Return (rv, t, s2), o2) ->
     evaluate fuel (binary op l r) s out = (Raise InterpTypeError, o2)) /\
  (forall e v t s1 o1,
     t <> Boolean ->
     evaluate fuel e s out = (Return (v, t, s1), o1) ->
     evaluate fuel (Not e) s out = (Raise InterpTypeError, o1)).
Proof.
  split.
  - intros op l r lv t s1 o1 rv s2 o2 Hd Ha Hl Hr.
    destruct op; try congruence; destruct t; try discriminate Ha;
      binary_forward Hl Hr; reflexivity.
  - intros e v t s1 o1 Hne H. simpl.
    rewrite (bind_of_Return _ _ _ _ _ H). cbv beta iota.
    destruct t; try reflexivity; congruence.
Qed.

(** [True + True], ["a" - "b"], [1 or 2], [not 1]. *)
Lemma unsupported_operand_type_witness :
  evaluate 0 (Add (BooleanLiteral true) (BooleanLiteral true)) EmptyState [] =
    (Raise InterpTypeError, []) /\
  evaluate 0 (Subtract (StringLiteral "a") (StringLiteral "b")) EmptyState [] =
    (Raise InterpTypeError, []) /\
  evaluate 0 (Or (IntLiteral 1) (IntLiteral 2)) EmptyState [] =
    (Raise InterpTypeError, []) /\
  evaluate 0 (Not (IntLiteral 1)) EmptyState [] = (Raise InterpTypeError, []).
Proof.
  destruct (unsupported_operand_type 0 EmptyState []) as [Hb Hn].
  split; [| split; [| split]].
  - apply (Hb OpAdd (BooleanLiteral true) (BooleanLiteral true)
              (PyBool true) Boolean EmptyState [] (PyBool true) EmptyState []);
      [discriminate | reflexivity | reflexivity | reflexivity].
  - apply (Hb OpSubtract (StringLiteral "a") (StringLiteral "b")
              (PyStr "a") String EmptyState [] (PyStr "b") EmptyState []);
      [discriminate | reflexivity | reflexivity | reflexivity].
  - apply (Hb OpOr (IntLiteral 1) (IntLiteral 2)
              (PyInt 1) Integer EmptyState [] (PyInt 2) EmptyState []);
      [discriminate | reflexivity | reflexivity | reflexivity].
  - apply (Hn (IntLiteral 1) (PyInt 1) Integer EmptyState []);
      [discriminate | reflexivity].
Defined.

(** X14.  What the accepted operand types compute.  On two Integer data
    [Add], [Subtract] and [Multiply] give the sum, difference and product of
    the unbounded integers; on two FloatingPoint data the IEEE sum,
    difference and product of the doubles; [Add] on two String data is
    concatenation; [And] and [Or] on two Boolean data are conjunction and
    disjunction; [Not] on a Boolean datum is negation.  The type returned
    is the operands' type and the state is the one the right operand left. *)
Theorem arithmetic_and_logic_results fuel l r s out s1 o1 s2 o2 :
  (forall x y,
     evaluate fuel l s out = (Return (PyInt x, Integer, s1), o1) ->
     evaluate fuel r s1 o1 = (Return (PyInt y, Integer, s2), o2) ->
     evaluate fuel (Add l r) s out = (Return (PyInt (x + y), Integer, s2), o2) /\
     evaluate fuel (Subtract l r) s out = (Return (PyInt (x - y), Integer, s2), o2) /\
     evaluate fuel (Multiply l r) s out = (Return (PyInt (x * y), Integer, s2), o2)) /\
  (forall x y,
     evaluate fuel l s out = (Return (PyFloat x, FloatingPoint, s1), o1) ->
     evaluate fuel r s1 o1 = (Return (PyFloat y, FloatingPoint, s2), o2) ->
     evaluate fuel (Add l r) s out =
       (Return (PyFloat (PrimFloat.add x y), FloatingPoint, s2), o2) /\
     evaluate fuel (Subtract l r) s out =
       (Return (PyFloat (PrimFloat.sub x y), FloatingPoint, s2), o2) /\
     evaluate fuel (Multiply l r) s out =
       (Return (PyFloat (PrimFloat.mul x y), FloatingPoint, s2), o2)) /\
  (forall x y,
     evaluate fuel l s out = (Return (PyStr x, String, s1), o1) ->
     evaluate fuel r s1 o1 = (Return (PyStr y, String, s2), o2) ->
     evaluate fuel (Add l r) s out =
       (Return (PyStr (String.append x y), String, s2), o2)) /\
  (forall x y,
     evaluate fuel l s out = (Return (PyBool x, Boolean, s1), o1) ->
     evaluate fuel r s1 o1 = (Return (PyBool y, Boolean, s2), o2) ->
     evaluate fuel (And l r) s out = (Return (PyBool (x && y), Boolean, s2), o2) /\
     evaluate fuel (Or l r) s out = (Return (PyBool (x || y), Boolean, s2), o2)) /\
  (forall x,
     evaluate fuel l s out = (Return (PyBool x, Boolean, s1), o1) ->
     evaluate fuel (Not l) s out = (Return (PyBool (negb x), Boolean, s1), o1)).
Proof.
  split; [| split; [| split; [| split]]].
  - intros x y Hl Hr. repeat split; binary_forward Hl Hr; reflexivity.
  - intros x y Hl Hr. repeat split; binary_forward Hl Hr; reflexivity.
  - intros x y Hl Hr. binary_forward Hl Hr. reflexivity.
  - intros x y Hl Hr. split; binary_forward Hl Hr; destruct x; reflexivity.
  - intros x Hl. simpl. rewrite (bind_of_Return _ _ _ _ _ Hl). reflexivity.
Qed.

(** [2 ^ 64 * 2 ^ 64] is [2 ^ 128], ["ab" + "c"] is ["abc"]. *)
Lemma arithmetic_and_logic_results_witness :
  evaluate 0 (Multiply (IntLiteral (2 ^ 64)) (IntLiteral (2 ^ 64))) EmptyState [] =
    (Return (PyInt (2 ^ 64 * 2 ^ 64), Integer, EmptyState), []) /\
  evaluate 0 (Add (StringLiteral "ab") (StringLiteral "c")) EmptyState [] =
    (Return (PyStr "abc", String, EmptyState), []).
Proof.
  split.
  - apply (proj1 (arithmetic_and_logic_results 0 (IntLiteral (2 ^ 64))
                    (IntLiteral (2 ^ 64)) EmptyState [] EmptyState [] EmptyState [])
                 (2 ^ 64) (2 ^ 64) eq_refl eq_refl).
  - apply (proj1 (proj2 (proj2
             (arithmetic_and_logic_results 0 (StringLiteral "ab") (StringLiteral "c")
                EmptyState [] EmptyState [] EmptyState [])))
             "ab"%string "c"%string eq_refl eq_refl).
Defined.

(** ** Comparisons *)

Lemma relational_Return_bool op on_unit lv lt rv out r out' :
  relational op on_unit lv lt rv out = (Return r, out') -> exists b, r = PyBool b.
Proof. unfold relational. intros H. peel H; eauto. Qed.

(** X15.  The six comparisons always answer with a Boolean: whenever one of
    them returns, the type is Boolean and the datum is a [bool].  On two
    operands of type Unit the answer is fixed, whatever the data: false for
    [Lt], [Gt] and [Ne], true for [Lte], [Gte] and [Eq_]. *)
Theorem comparisons_answer_booleans fuel s out :
  (forall op l r v t s' out',
     relational_unit_answer op <> None ->
     evaluate fuel (binary op l r) s out = (Return (v, t, s'), out') ->
     t = Boolean /\ exists b, v = PyBool b) /\
  (forall op answer l r lv s1 o1 rv s2 o2,
     relational_unit_answer op = Some answer ->
     evaluate fuel l s out = (Return (lv, Unit, s1), o1) ->
     evaluate fuel r s1 o1 = (Return (rv, Unit, s2), o2) ->
     evaluate fuel (binary op l r) s out = (Return (PyBool answer, Boolean, s2), o2)).
Proof.
  split.
  - intros op l r v t s' out' Hop H.
    destruct op; simpl in Hop; try congruence; simpl in H; bind_inv H; bind_inv H;
      match goal with
      | E : relational _ _ _ _ _ _ = _ |- _ =>
          apply relational_Return_bool in E; destruct E as [b ->]
      end;
      peel H; eauto.
  - intros op answer l r lv s1 o1 rv s2 o2 Hop Hl Hr.
    destruct op; simpl in Hop; inv Hop; binary_forward Hl Hr; reflexivity.
Qed.

(** [ren == ren] and [ren < ren]. *)
Lemma comparisons_answer_booleans_witness :
  evaluate 0 (Eq_ Ren Ren) EmptyState [] = (Return (PyBool true, Boolean, EmptyState), []) /\
  evaluate 0 (Lt Ren Ren) EmptyState [] = (Return (PyBool false, Boolean, EmptyState), []).
Proof.
  destruct (comparisons_answer_booleans 0 EmptyState []) as [_ H].
  split.
  - apply (H OpEq true Ren Ren PyNone EmptyState [] PyNone EmptyState []
             eq_refl eq_refl eq_refl).
  - apply (H OpLt false Ren Ren PyNone EmptyState [] PyNone EmptyState []
             eq_refl eq_refl eq_refl).
Defined.

(** X16.  On two Integer data the comparisons are the order and equality of
    the integers; on two String data [Eq_] is equality of the strings and
    [Lt] the lexicographic order. *)
Theorem comparisons_on_integers_and_strings fuel l r s out s1 o1 s2 o2 :
  (forall x y,
     evaluate fuel l s out = (Return (PyInt x, Integer, s1), o1) ->
     evaluate fuel r s1 o1 = (Return (PyInt y, Integer, s2), o2) ->
     evaluate fuel (Lt l r) s out = (Return (PyBool (x <? y), Boolean, s2), o2) /\
     evaluate fuel (Lte l r) s out = (Return (PyBool (x <=? y), Boolean, s2), o2) /\
     evaluate fuel (Gt l r) s out = (Return (PyBool (x >? y), Boolean, s2), o2) /\
     evaluate fuel (Gte l r) s out = (Return (PyBool (x >=? y), Boolean, s2), o2) /\
     evaluate fuel (Eq_ l r) s out = (Return (PyBool (x =? y), Boolean, s2), o2) /\
     evaluate fuel (Ne l r) s out = (Return (PyBool (negb (x =? y)), Boolean, s2), o2)) /\
  (forall x y,
     evaluate fuel l s out = (Return (PyStr x, String, s1), o1) ->
     evaluate fuel r s1 o1 = (Return (PyStr y, String, s2), o2) ->
     evaluate fuel (Eq_ l r) s out = (Return (PyBool (String.eqb x y), Boolean, s2), o2) /\
     evaluate fuel (Lt l r) s out = (Return (PyBool (String.ltb x y), Boolean, s2), o2)).
Proof.
  split.
  - intros x y Hl Hr.
    repeat split; binary_forward Hl Hr; rewrite ?Z.eqb_compare;
      unfold relational, Py.lt, Py.le, Py.gt, Py.ge, Py.ne, Py.eq, Py.ordering; simpl;
      unfold lift, bind, ret, Z.ltb, Z.leb, Z.gtb, Z.geb;
      destruct (x ?= y); reflexivity.
  - intros x y Hl Hr. split; binary_forward Hl Hr.
    + reflexivity.
    + unfold relational, Py.lt, Py.ordering, String.ltb. simpl.
      unfold lift, bind, ret. destruct (String.compare x y); reflexivity.
Qed.

(** [2 < 3] and ["a" == "b"]. *)
Lemma comparisons_on_integers_and_strings_witness :
  evaluate 0 (Lt (IntLiteral 2) (IntLiteral 3)) EmptyState [] =
    (Return (PyBool true, Boolean, EmptyState), []) /\
  evaluate 0 (Eq_ (StringLiteral "a") (StringLiteral "b")) EmptyState [] =
    (Return (PyBool false, Boolean, EmptyState), []).
Proof.
  split.
  - apply (proj1 (proj1 (comparisons_on_integers_and_strings 0 (IntLiteral 2)
                           (IntLiteral 3) EmptyState [] EmptyState [] EmptyState [])
                        2 3 eq_refl eq_refl)).
  - apply (proj1 (proj2 (comparisons_on_integers_and_strings 0 (StringLiteral "a")
                           (StringLiteral "b") EmptyState [] EmptyState [] EmptyState [])
                        "a"%string "b"%string eq_refl eq_refl)).
Defined.

(** X17.  [Ne] is the negation of [Eq_]: on the same operands, in the same
    state, one returns the Boolean [b] exactly when the other returns its
    negation, with the same state and output. *)
Theorem ne_negates_eq fuel l r s out b s' out' :
  evaluate fuel (Eq_ l r) s out = (Return (PyBool b, Boolean, s'), out') <->
  evaluate fuel (Ne l r) s out = (Return (PyBool (negb b), Boolean, s'), out').
Proof.
  split; intros H; simpl in H; bind_inv H;
    match goal with
    | E : operands _ _ _ _ = _ |- _ =>
        apply operands_Return in E; destruct E as (s1 & o1 & Hl & Hr)
    end;
    binary_forward Hl Hr;
    match goal with
    | lt : Type_ |- _ =>
        destruct lt; unfold relational, lift, bind, ret, Py.ne in *; simpl in *;
        inv H
    end;
    try reflexivity;
    try (match goal with
         | E : negb _ = negb _ |- _ =>
             apply (f_equal negb) in E; rewrite !negb_involutive in E; rewrite E
         end; reflexivity);
    try (destruct b; simpl in *; congruence).
Qed.

(** ** Conditionals *)

(** X18.  [If] evaluates its condition, then exactly one branch, in the
    state and after the output the condition left: the [true] branch when
    the condition is a true Boolean, the [false] branch when it is a false
    one; so the result does not depend on the branch that is not taken.  A
    condition of another type raises [InterpTypeError] and an error of the
    condition is the error of the [If]; in both cases no branch is
    evaluated. *)
Theorem if_takes_one_branch fuel c t f s out :
  (forall cv s1 o1,
     evaluate fuel c s out = (Return (cv, Boolean, s1), o1) ->
     evaluate fuel (If c t f) s out =
       if truthy cv then evaluate fuel t s1 o1 else evaluate fuel f s1 o1) /\
  (forall cv s1 o1 other,
     evaluate fuel c s out = (Return (cv, Boolean, s1), o1) ->
     (truthy cv = true ->
        evaluate fuel (If c t other) s out = evaluate fuel (If c t f) s out) /\
     (truthy cv = false ->
        evaluate fuel (If c other f) s out = evaluate fuel (If c t f) s out)) /\
  (forall cv ct s1 o1,
     evaluate fuel c s out = (Return (cv, ct, s1), o1) ->
     ct <> Boolean ->
     evaluate fuel (If c t f) s out = (Raise InterpTypeError, o1)) /\
  (forall e o1,
     evaluate fuel c s out = (Raise e, o1) ->
     evaluate fuel (If c t f) s out = (Raise e, o1)).
Proof.
  split; [| split; [| split]].
  - intros cv s1 o1 H. simpl. rewrite (bind_of_Return _ _ _ _ _ H). cbv beta iota.
    destruct (truthy cv); reflexivity.
  - intros cv s1 o1 other H. simpl. rewrite !(bind_of_Return _ _ _ _ _ H).
    cbv beta iota. split; intros ->; reflexivity.
  - intros cv ct s1 o1 H Hne. simpl. rewrite (bind_of_Return _ _ _ _ _ H).
    cbv beta iota. destruct ct; try reflexivity; congruence.
  - intros e o1 H. simpl. apply bind_of_Raise, H.
Qed.

(** [if 1 < 2 then "yes" else print(1 / 0)]: the division is not
    evaluated and nothing is printed. *)
Lemma if_takes_one_branch_witness :
  evaluate 0 (If (Lt (IntLiteral 1) (IntLiteral 2))
                 (StringLiteral "yes")
                 (Print (Divide (IntLiteral 1) (IntLiteral 0)))) EmptyState [] =
    (Return (PyStr "yes", String, EmptyState), []).
Proof.
  apply (proj1 (if_takes_one_branch 0 (Lt (IntLiteral 1) (IntLiteral 2))
                  (StringLiteral "yes")
                  (Print (Divide (IntLiteral 1) (IntLiteral 0))) EmptyState [])
               (PyBool true) EmptyState [] eq_refl).
Defined.

(** ** Unrolling the loop *)

Lemma evaluates_from expression state out r out' :
  evaluates expression state out r out' ->
  exists n, forall m, (n <= m)%nat -> evaluate m expression state out = (r, out').
Proof.
  intros (n & H & Hne). exists n. intros m Hle.
  apply (evaluate_fuel_mono n m Hle expression state out r out' H Hne).
Qed.

(** X19.  The loop unrolls.  If the condition is a true Boolean, the body
    returns, and the loop started afresh in the state the body left returns
    a triple, then the loop started in the original state returns that same
    triple and output.  If instead the body, or the condition evaluated
    after it, raises an error, the loop raises that error.  (Evaluations
    are taken with any sufficient amount of fuel.) *)
Theorem while_unrolls c b s out cv s1 o1 :
  evaluates c s out (Return (cv, Boolean, s1)) o1 ->
  truthy cv = true ->
  (forall bv bt s2 o2 v t s3 o3,
     evaluates b s1 o1 (Return (bv, bt, s2)) o2 ->
     evaluates (While c b) s2 o2 (Return (v, t, s3)) o3 ->
     evaluates (While c b) s out (Return (v, t, s3)) o3) /\
  (forall e o2,
     evaluates b s1 o1 (Raise e) o2 ->
     evaluates (While c b) s out (Raise e) o2) /\
  (forall bv bt s2 o2 e o3,
     evaluates b s1 o1 (Return (bv, bt, s2)) o2 ->
     evaluates c s2 o2 (Raise e) o3 ->
     evaluates (While c b) s out (Raise e) o3).
Proof.
  intros Hc Ht. apply evaluates_from in Hc. destruct Hc as [nc Hc].
  split; [| split].
  - intros bv bt s2 o2 v t s3 o3 Hb Hw.
    apply evaluates_from in Hb. destruct Hb as [nb Hb].
    apply evaluates_from in Hw. destruct Hw as [nw Hw].
    pose (N := Nat.max nc (Nat.max nb nw)).
    assert (Hw' := Hw N ltac:(unfold N; lia)).
    simpl in Hw'. bind_inv Hw'.
    destruct t0; try (peel Hw'; fail).
    exists (S N). split; [| discriminate].
    rewrite (evaluate_While _ _ _ _ _ _ _ _ _ (Hc (S N) ltac:(unfold N; lia))).
    rewrite while_loop_eq, Ht.
    rewrite (bind_of_Return _ _ _ _ _ (Hb (S N) ltac:(unfold N; lia))). cbv beta iota.
    assert (Ec : evaluate (S N) c s2 o2 = (Return (p, Boolean, s0), o)).
    { apply (evaluate_fuel_mono N (S N) ltac:(lia) c s2 o2 _ _ E). discriminate. }
    rewrite (bind_of_Return _ _ _ _ _ Ec). cbv beta iota.
    apply (while_loop_refines (evaluate N b) (evaluate (S N) b)
             (evaluate N c) (evaluate (S N) c)
             (fun st => evaluate_fuel_mono N (S N) ltac:(lia) b st)
             (fun st => evaluate_fuel_mono N (S N) ltac:(lia) c st)
             N N (Nat.le_refl N) p Boolean s0 o _ _ Hw').
    discriminate.
  - intros e o2 Hb. apply evaluates_from in Hb. destruct Hb as [nb Hb].
    pose (N := Nat.max nc nb).
    exists (S N). split; [| discriminate].
    rewrite (evaluate_While _ _ _ _ _ _ _ _ _ (Hc (S N) ltac:(unfold N; lia))).
    rewrite while_loop_eq, Ht.
    apply bind_of_Raise, Hb. unfold N. lia.
  - intros bv bt s2 o2 e o3 Hb Hc2.
    apply evaluates_from in Hb. destruct Hb as [nb Hb].
    apply evaluates_from in Hc2. destruct Hc2 as [nc2 Hc2].
    pose (N := Nat.max nc (Nat.max nb nc2)).
    exists (S N). split; [| discriminate].
    rewrite (evaluate_While _ _ _ _ _ _ _ _ _ (Hc (S N) ltac:(unfold N; lia))).
    rewrite while_loop_eq, Ht.
    rewrite (bind_of_Return _ _ _ _ _ (Hb (S N) ltac:(unfold N; lia))). cbv beta iota.
    apply bind_of_Raise, Hc2. unfold N. lia.
Qed.

(** From [i = 2], one iteration of the counting loop and then the loop
    from [i = 3]. *)
Lemma while_unrolls_witness :
  evaluates count_loop (set_value EmptyState "i" (PyInt 2) Integer) []
    (Return (PyBool false, Boolean,
             set_value (set_value EmptyState "i" (PyInt 2) Integer) "i" (PyInt 3) Integer))
    [].
Proof.
  pose (s2 := set_value EmptyState "i" (PyInt 2) Integer).
  pose (s3 := set_value s2 "i" (PyInt 3) Integer).
  assert (Hc : evaluates (Lt (Variable_ "i") (IntLiteral 3)) s2 []
                 (Return (PyBool true, Boolean, s2)) []).
  { exists 0%nat. split; [reflexivity | discriminate]. }
  apply (proj1 (while_unrolls (Lt (Variable_ "i") (IntLiteral 3))
                  (Assign "i" (Add (Variable_ "i") (IntLiteral 1)))
                  s2 [] (PyBool true) s2 [] Hc eq_refl)
               (PyInt 3) Integer s3 []).
  - exists 0%nat. split; [reflexivity | discriminate].
  - exists 0%nat. split; [reflexivity | discriminate].
Defined.

(** ** Type tags guard the host operators *)

Lemma post_ret {A : Type} (Q : A -> Prop) (a : A) : Q a -> post Q (ret a).
Proof. intros H out r out' E. unfold ret in E. inv E. exact H. Qed.

Lemma post_raise_interp {A : Type} (Q : A -> Prop) (e : Error) :
  classified e -> post Q (@raise A e).
Proof.
  intros Hc out r out' E. unfold raise in E. inv E.
  destruct Hc as [-> | [-> | ->]]; exact I.
Qed.

Lemma post_raise_host {A : Type} (Q : A -> Prop) (h : HostError) :
  ~ host_mishap h -> post Q (@raise A (HostFailure h)).
Proof. intros Hh out r out' E. unfold raise in E. inv E. exact Hh. Qed.

Lemma post_lift {A : Type} (Q : A -> Prop) (h : host A) :
  match h with Ok a => Q a | Throw e => ~ host_mishap e end -> post Q (lift h).
Proof. destruct h; [apply post_ret | apply post_raise_host]. Qed.

Lemma post_bind {A B : Type} (P : A -> Prop) (Q : B -> Prop) (m : M A) (k : A -> M B) :
  post P m -> (forall a, P a -> post Q (k a)) -> post Q (bind m k).
Proof.
  intros Hm Hk out r out' H.
  destruct (bind_cases _ _ _ _ _ H) as [(a & o1 & E1 & E2) | [(e & E1 & ->) | (E1 & ->)]].
  - apply Hm in E1. eapply Hk; eassumption.
  - apply Hm in E1. exact E1.
  - apply Hm in E1. exact E1.
Qed.

Lemma post_print (l : Line) : post (fun _ => True) (print l).
Proof. intros out r out' E. unfold print in E. inv E. exact I. Qed.

Lemma well_tagged_get_value s x v t :
  well_tagged s -> get_value s x = Some (v, t) -> has_type v t.
Proof.
  induction s as [| name [v0 t0] next IH]; simpl; [discriminate |].
  intros [Hv Hn]. destruct (String.eqb name x); [| auto].
  intros E. inv E. exact Hv.
Qed.

Lemma not_mishap_UnboundLocalError : ~ host_mishap UnboundLocalError.
Proof. intros [H | H]; discriminate H. Qed.

Lemma not_mishap_OverflowError : ~ host_mishap OverflowError.
Proof. intros [H | H]; discriminate H. Qed.

Lemma not_mishap_ValueError : ~ host_mishap ValueError.
Proof. intros [H | H]; discriminate H. Qed.

Lemma classified_syntax : classified InterpSyntaxError.
Proof. left. reflexivity. Qed.

Lemma classified_type : classified InterpTypeError.
Proof. right. left. reflexivity. Qed.

Lemma classified_math : classified InterpMathError.
Proof. right. right. reflexivity. Qed.

#[local] Hint Resolve not_mishap_UnboundLocalError not_mishap_OverflowError
  not_mishap_ValueError classified_syntax classified_type classified_math : stimpl.

(** The prologue of a binary node hands on two data of one type. *)
Definition sound_operands (x : PyValue * Type_ * PyValue * State) : Prop :=
  match x with (lv, lt, rv, s') => has_type lv lt /\ has_type rv lt /\ well_tagged s' end.

Lemma operands_post el er s :
  (forall s, well_tagged s -> post sound_triple (el s)) ->
  (forall s, well_tagged s -> post sound_triple (er s)) ->
  well_tagged s ->
  post sound_operands (operands el er s).
Proof.
  intros Hl Hr Hs. unfold operands.
  eapply post_bind; [apply Hl, Hs |]. intros [[lv lt] s1] [Hlv Hs1].
  eapply post_bind; [apply Hr, Hs1 |]. intros [[rv rt] s2] [Hrv Hs2].
  destruct (Type_eqb lt rt) eqn:E; simpl.
  - apply Type_eqb_eq in E. subst. apply post_ret. simpl. auto.
  - apply post_raise_interp. auto with stimpl.
Qed.

Lemma int_true_divide_safe x y :
  y <> 0 ->
  match Py.int_true_divide x y with Ok _ => True | Throw e => ~ host_mishap e end.
Proof.
  intros Hy. unfold Py.int_true_divide.
  destruct (y =? 0) eqn:E; [apply Z.eqb_eq in E; contradiction |].
  destruct (SFdiv prec emax (SF_of_int x) (SF_of_int y)); auto with stimpl.
Qed.

Lemma int_of_float_safe f :
  match Py.int_of_float f with Ok _ => True | Throw e => ~ host_mishap e end.
Proof. unfold Py.int_of_float. destruct (Prim2SF f); auto with stimpl. Qed.

Lemma eval_sequence_post eval exprs :
  Forall (fun e => forall s, well_tagged s -> post sound_triple (eval e s)) exprs ->
  forall last s,
    well_tagged s ->
    match last with Some (v, t) => has_type v t | None => True end ->
    post sound_triple (eval_sequence eval exprs last s).
Proof.
  induction 1 as [| e es He _ IH]; intros last s Hs Hlast.
  - rewrite eval_sequence_nil. destruct last as [[v t] |].
    + apply post_ret. simpl. auto.
    + apply post_raise_host. auto with stimpl.
  - rewrite eval_sequence_cons.
    eapply post_bind; [apply He, Hs |]. intros [[v t] s1] [Hv Hs1].
    apply IH; assumption.
Qed.

Lemma is_zero_false_int y : is_zero (PyInt y) = false -> y <> 0.
Proof.
  intros H Hy. apply is_zero_false in H. apply H. exact Hy.
Qed.

Lemma is_zero_false_float y :
  is_zero (PyFloat y) = false -> PrimFloat.eqb y PrimFloat.zero = false.
Proof.
  intros H. apply is_zero_false in H. simpl in H.
  destruct (PrimFloat.eqb y PrimFloat.zero); [contradiction H; reflexivity | reflexivity].
Qed.

Lemma relational_post op on_unit lv lt rv :
  (lt <> Unit -> match op lv rv with Ok _ => True | Throw e => ~ host_mishap e end) ->
  post (fun r => has_type r Boolean) (relational op on_unit lv lt rv).
Proof.
  intros Hop. unfold relational.
  assert (H : lt <> Unit ->
              post (fun r => has_type r Boolean)
                (bind (lift (op lv rv)) (fun result => ret (PyBool result)))).
  { intros Hu. eapply post_bind with (P := fun _ => True).
    - apply post_lift. specialize (Hop Hu). destruct (op lv rv); [exact I | exact Hop].
    - intros b _. apply post_ret. exact I. }
  destruct lt; try (apply H; discriminate). apply post_ret. exact I.
Qed.

Lemma ordering_safe op lv rv t :
  has_type lv t -> has_type rv t -> t <> Unit ->
  match Py.ordering op lv rv with Ok _ => True | Throw e => ~ host_mishap e end.
Proof.
  destruct t, lv; simpl; try contradiction; destruct rv; simpl; try contradiction;
    intros _ _ Hu; try exact I; contradiction Hu; reflexivity.
Qed.

Lemma well_tagged_set_value s x v t :
  well_tagged s -> has_type v t -> well_tagged (set_value s x v t).
Proof. intros Hs Hv. simpl. split; assumption. Qed.

Lemma arith_post (op : PyValue -> PyValue -> host PyValue) lv rv t s2 :
  match op lv rv with Ok r => has_type r t | Throw e => ~ host_mishap e end ->
  well_tagged s2 ->
  post sound_triple (bind (lift (op lv rv)) (fun result => ret (result, t, s2))).
Proof.
  intros Hop Hs. eapply post_bind with (P := fun r => has_type r t).
  - apply post_lift. exact Hop.
  - intros res Hres. apply post_ret. simpl. auto.
Qed.

Lemma evaluate_post fuel expression :
  while_free expression = true ->
  forall state, well_tagged state -> post sound_triple (evaluate fuel expression state).
Proof.
  unfold while_free. revert expression.
  apply (Expr_ind'
           (fun e => all_nodes (fun n => negb (is_While n)) e = true ->
                     forall s, well_tagged s -> post sound_triple (evaluate fuel e s))).
  - repeat split; intros; simpl; try (apply post_ret; simpl; auto; fail);
      try (apply post_raise_interp; auto with stimpl; fail).
    destruct (get_value s x) as [[v t] |] eqn:E.
    + apply post_ret. simpl. split; [| assumption].
      eapply well_tagged_get_value; eassumption.
    + apply post_raise_interp. auto with stimpl.
  - intros e IH. repeat split.
    + intros H s Hs. apply andb_true_iff in H. destruct H as [_ H]. simpl.
      eapply post_bind; [apply IH; assumption |]. intros [[v t] s1] [Hv Hs1].
      eapply post_bind; [apply post_print |]. intros _ _.
      apply post_ret. simpl. auto.
    + intros H s Hs. apply andb_true_iff in H. destruct H as [_ H]. simpl.
      eapply post_bind; [apply IH; assumption |]. intros [[v t] s1] [Hv Hs1].
      destruct t; try (apply post_raise_interp; auto with stimpl; fail).
      apply post_ret. simpl. auto.
    + intros x H s Hs. apply andb_true_iff in H. destruct H as [_ H]. simpl.
      eapply post_bind; [apply IH; assumption |]. intros [[v t] s1] [Hv Hs1].
      cbv beta iota zeta.
      destruct (assign_mismatch t (option_map snd (get_value s1 x))).
      * apply post_raise_interp. auto with stimpl.
      * apply post_ret. simpl. auto.
  - intros es IH. split; intros H s Hs; apply andb_true_iff in H; destruct H as [_ H];
      simpl; (apply eval_sequence_post; [| assumption | exact I]);
      apply (forallb_Forall_impl _ _ _ IH H).
  - intros l r IHl IHr. repeat split; intros H s Hs;
      apply andb_true_iff in H; destruct H as [_ H];
      apply andb_true_iff in H; destruct H as [Hl Hr]; simpl;
      (eapply post_bind; [apply operands_post; auto |]);
      intros [[[lv lt] rv] s2] (Hlv & Hrv & Hs2); cbv beta iota.
    + destruct lt; try (apply post_raise_interp; auto with stimpl; fail);
        (apply arith_post; [| assumption]);
        destruct lv; simpl in Hlv; try contradiction;
        destruct rv; simpl in Hrv; try contradiction; exact I.
    + destruct lt; try (apply post_raise_interp; auto with stimpl; fail);
        (apply arith_post; [| assumption]);
        destruct lv; simpl in Hlv; try contradiction;
        destruct rv; simpl in Hrv; try contradiction; exact I.
    + destruct lt; try (apply post_raise_interp; auto with stimpl; fail);
        (apply arith_post; [| assumption]);
        destruct lv; simpl in Hlv; try contradiction;
        destruct rv; simpl in Hrv; try contradiction; exact I.
    + destruct (is_zero rv) eqn:Ez; [apply post_raise_interp; auto with stimpl |].
      destruct lt, lv; simpl in Hlv; try contradiction;
        destruct rv; simpl in Hrv; try contradiction;
        try (apply post_raise_interp; auto with stimpl; fail).
      * destruct (is_not_zero (PyInt z0)); [| apply post_raise_host; auto with stimpl].
        eapply post_bind with (P := fun _ => True).
        { apply post_lift. unfold Py.truediv. simpl.
          apply int_true_divide_safe, is_zero_false_int, Ez. }
        intros q _.
        eapply post_bind with (P := fun _ => True).
        { apply post_lift. apply int_of_float_safe. }
        intros n _. apply post_ret. simpl. auto.
      * destruct (is_not_zero (PyFloat f0)); [| apply post_raise_host; auto with stimpl].
        eapply post_bind with (P := fun _ => True).
        { apply post_lift. unfold Py.truediv, Py.float_true_divide. simpl.
          rewrite (is_zero_false_float _ Ez). exact I. }
        intros q _. apply post_ret. simpl. auto.
  - intros l r IHl IHr. repeat split; intros H s Hs;
      apply andb_true_iff in H; destruct H as [_ H];
      apply andb_true_iff in H; destruct H as [Hl Hr]; simpl;
      (eapply post_bind; [apply operands_post; auto |]);
      intros [[[lv lt] rv] s2] (Hlv & Hrv & Hs2); cbv beta iota;
      destruct lt; try (apply post_raise_interp; auto with stimpl; fail);
      apply post_ret; simpl; (split; [| assumption]);
      destruct lv; simpl in Hlv; try contradiction;
      destruct rv; simpl in Hrv; try contradiction;
      unfold Py.and_, Py.or_; simpl; destruct b; exact I.
  - intros l r IHl IHr. repeat split; intros H s Hs;
      apply andb_true_iff in H; destruct H as [_ H];
      apply andb_true_iff in H; destruct H as [Hl Hr]; simpl;
      (eapply post_bind; [apply operands_post; auto |]);
      intros [[[lv lt] rv] s2] (Hlv & Hrv & Hs2); cbv beta iota;
      (eapply post_bind;
       [apply relational_post; intros Hu
       | intros res Hres; apply post_ret; simpl; auto]);
      try exact I;
      unfold Py.lt, Py.le, Py.gt, Py.ge; eapply ordering_safe; eassumption.
  - intros c e1 e2 IHc IH1 IH2 H s Hs.
    apply andb_true_iff in H; destruct H as [_ H].
    apply andb_true_iff in H; destruct H as [H H2].
    apply andb_true_iff in H; destruct H as [Hc H1]. simpl.
    eapply post_bind; [apply IHc; assumption |]. intros [[cv ct] s1] [Hcv Hs1].
    destruct ct; try (apply post_raise_interp; auto with stimpl; fail).
    destruct (truthy cv); [apply IH1 | apply IH2]; assumption.
  - intros c b _ _ H. simpl in H. discriminate H.
Qed.

(** X20.  Type tags guard the host operators.  An expression with no
    [While] node, evaluated in a state whose stored data agree with their
    tags, needs no fuel; when it returns, the datum agrees with the
    returned tag and so does every datum stored in the returned state; and
    the only host exceptions that can escape are not [TypeError] and not
    [ZeroDivisionError]: no Python operator is ever applied to data it does
    not accept, and no division by zero reaches Python. *)
Theorem while_free_type_safety fuel e s out r out' :
  while_free e = true ->
  well_tagged s ->
  evaluate fuel e s out = (r, out') ->
  match r with
  | Return (v, t, s') => has_type v t /\ well_tagged s'
  | Raise (HostFailure h) => h <> TypeError /\ h <> ZeroDivisionError
  | Raise _ => True
  | OutOfFuel => False
  end.
Proof.
  intros Hw Hs H. pose proof (evaluate_post fuel e Hw s Hs out r out' H) as Hp.
  destruct r as [[[v t] s'] | err |]; [exact Hp | | exact Hp].
  destruct err; try exact I. unfold host_mishap in Hp. split; intros E; apply Hp; auto.
Qed.

Local Open Scope string_scope.

(** [x = 6; y = x / 4; not (x < y)], with no fuel. *)
Lemma while_free_type_safety_witness :
  match fst (evaluate 0
               (Program [Assign "x" (IntLiteral 6);
                         Assign "y" (Divide (Variable_ "x") (IntLiteral 4));
                         Not (Lt (Variable_ "x") (Variable_ "y"))])
               EmptyState []) with
  | Return (v, t, s') => has_type v t /\ well_tagged s'
  | Raise (HostFailure h) => h <> TypeError /\ h <> ZeroDivisionError
  | Raise _ => True
  | OutOfFuel => False
  end.
Proof.
  destruct (evaluate 0
              (Program [Assign "x" (IntLiteral 6);
                        Assign "y" (Divide (Variable_ "x") (IntLiteral 4));
                        Not (Lt (Variable_ "x") (Variable_ "y"))])
              EmptyState []) as [r out'] eqn:E.
  apply (while_free_type_safety 0
           (Program [Assign "x" (IntLiteral 6);
                     Assign "y" (Divide (Variable_ "x") (IntLiteral 4));
                     Not (Lt (Variable_ "x") (Variable_ "y"))])
           EmptyState [] r out' eq_refl I E).
Defined.

(** The restriction to expressions without [While] is needed: a loop whose
    condition is a Boolean at first and the empty string afterwards returns
    [False] tagged String, and adding a string to it fails in Python. *)
Remark while_result_can_defeat_the_tags :
  fst (evaluate 1
         (Program
            [Assign "first" (BooleanLiteral true);
             Add (While (If (Variable_ "first")
                            (Sequence [Assign "first" (BooleanLiteral false);
                                       BooleanLiteral true])
                            (StringLiteral ""))
                        Ren)
                 (StringLiteral "a")])
         EmptyState [])
  = Raise (HostFailure TypeError).
Proof. vm_compute. reflexivity. Qed.

Local Close Scope string_scope.

(** ** Division of floating-point data *)

(** X21.  [Divide] on two FloatingPoint operands: when the right datum
    compares equal to zero ([0.0] or [-0.0]) the node raises
    [InterpMathError]; otherwise it returns the IEEE binary64 quotient of
    the two doubles, tagged FloatingPoint, in the state and with the output
    the right operand left.  Python's own [ZeroDivisionError] is never
    reached. *)
Theorem divide_floating_point fuel l r s out x y s1 o1 s2 o2 :
  evaluate fuel l s out = (Return (PyFloat x, FloatingPoint, s1), o1) ->
  evaluate fuel r s1 o1 = (Return (PyFloat y, FloatingPoint, s2), o2) ->
  evaluate fuel (Divide l r) s out =
    if PrimFloat.eqb y PrimFloat.zero then (Raise InterpMathError, o2)
    else (Return (PyFloat (PrimFloat.div x y), FloatingPoint, s2), o2).
Proof.
  intros Hl Hr. destruct (PrimFloat.eqb y PrimFloat.zero) eqn:Hy.
  - rewrite (evaluate_Divide _ _ _ _ _ _ _ _ _ _ _ _ _ Hl Hr).
    unfold divide_tail.
    assert (Hz : is_zero (PyFloat y) = true) by (apply is_zero_spec; exact Hy).
    rewrite Type_eqb_refl, Hz. reflexivity.
  - eapply divide_floats; eassumption.
Qed.

(** [7.0 / 2.0] is [3.5]; [1.0 / -0.0] is a math error. *)
Lemma divide_floating_point_witness :
  evaluate 0 (Divide (FloatingPointLiteral 7%float) (FloatingPointLiteral 2%float))
    EmptyState [] =
    (Return (PyFloat 3.5%float, FloatingPoint, EmptyState), []) /\
  evaluate 0 (Divide (FloatingPointLiteral 1%float)
                     (FloatingPointLiteral (PrimFloat.opp PrimFloat.zero)))
    EmptyState [] =
    (Raise InterpMathError, []).
Proof.
  split.
  - apply (divide_floating_point 0 (FloatingPointLiteral 7%float)
             (FloatingPointLiteral 2%float) EmptyState [] 7%float 2%float
             EmptyState [] EmptyState [] eq_refl eq_refl).
  - apply (divide_floating_point 0 (FloatingPointLiteral 1%float)
             (FloatingPointLiteral (PrimFloat.opp PrimFloat.zero)) EmptyState []
             1%float (PrimFloat.opp PrimFloat.zero)
             EmptyState [] EmptyState [] eq_refl eq_refl).
Defined.

(** ** Evaluation sees the state through look-ups only *)

Lemma agree_ret {A : Type} (R : A -> A -> Prop) (a a' : A) :
  R a a' -> agree R (ret a) (ret a').
Proof. intros H out. unfold ret. simpl. auto. Qed.

Lemma agree_raise {A : Type} (R : A -> A -> Prop) (e : Error) :
  agree R (raise e) (raise e).
Proof. intros out. unfold raise. simpl. auto. Qed.

Lemma agree_out_of_fuel {A : Type} (R : A -> A -> Prop) :
  agree R out_of_fuel out_of_fuel.
Proof. intros out. unfold out_of_fuel. simpl. auto. Qed.

Lemma agree_same {A : Type} (m : M A) : agree Logic.eq m m.
Proof. intros out. split; [reflexivity |]. destruct (fst (m out)); auto. Qed.

Lemma agree_bind {A B : Type} (R : A -> A -> Prop) (Q : B -> B -> Prop)
    (m m' : M A) (k k' : A -> M B) :
  agree R m m' ->
  (forall a a', R a a' -> agree Q (k a) (k' a')) ->
  agree Q (bind m k) (bind m' k').
Proof.
  intros Hm Hk out. unfold bind. specialize (Hm out).
  destruct (m out) as [[a | e |] o1], (m' out) as [[a' | e' |] o1'];
    simpl in Hm; destruct Hm as [Ho Hr]; try contradiction; subst.
  - apply Hk, Hr.
  - simpl. auto.
  - simpl. auto.
Qed.

Ltac agree_tail :=
  repeat first
    [ apply agree_raise | apply agree_out_of_fuel
    | solve [apply agree_ret; simpl; auto]
    | eapply agree_bind; [apply agree_same | intros ? ? <-]
    | match goal with
      | |- agree _ (match ?x with _ => _ end) _ => destruct x
      end ].

Lemma operands_agree el er s s' :
  (forall s s', same_lookups s s' -> agree same_triple (el s) (el s')) ->
  (forall s s', same_lookups s s' -> agree same_triple (er s) (er s')) ->
  same_lookups s s' ->
  agree same_operands (operands el er s) (operands el er s').
Proof.
  intros Hl Hr Hs. unfold operands.
  eapply agree_bind; [apply Hl, Hs |].
  intros [[lv lt] s1] [[lv' lt'] s1'] (<- & <- & Hs1).
  eapply agree_bind; [apply Hr, Hs1 |].
  intros [[rv rt] s2] [[rv' rt'] s2'] (<- & <- & Hs2).
  destruct (negb (Type_eqb lt rt)); [apply agree_raise |].
  apply agree_ret. simpl. auto.
Qed.

Lemma eval_sequence_agree eval exprs :
  Forall (fun e => forall s s', same_lookups s s' ->
                     agree same_triple (eval e s) (eval e s')) exprs ->
  forall last s s',
    same_lookups s s' ->
    agree same_triple (eval_sequence eval exprs last s) (eval_sequence eval exprs last s').
Proof.
  induction 1 as [| e es He _ IH]; intros last s s' Hs.
  - rewrite !eval_sequence_nil. destruct last as [[v t] |]; agree_tail.
  - rewrite !eval_sequence_cons.
    eapply agree_bind; [apply He, Hs |].
    intros [[v t] s1] [[v' t'] s1'] (<- & <- & Hs1). apply IH, Hs1.
Qed.

Lemma while_loop_agree eb ec :
  (forall s s', same_lookups s s' -> agree same_triple (eb s) (eb s')) ->
  (forall s s', same_lookups s s' -> agree same_triple (ec s) (ec s')) ->
  forall n cv ct s s',
    same_lookups s s' ->
    agree same_triple (while_loop eb ec n cv ct s) (while_loop eb ec n cv ct s').
Proof.
  intros Hb Hc. induction n as [| n IH]; intros cv ct s s' Hs;
    rewrite !while_loop_eq; destruct (truthy cv); agree_tail.
  eapply agree_bind; [apply Hb, Hs |].
  intros [[bv bt] s1] [[bv' bt'] s1'] (<- & <- & Hs1).
  eapply agree_bind; [apply Hc, Hs1 |].
  intros [[cv' ct'] s2] [[cv'' ct''] s2'] (<- & <- & Hs2).
  apply IH, Hs2.
Qed.

Lemma evaluate_agree fuel expression :
  forall s s', same_lookups s s' ->
    agree same_triple (evaluate fuel expression s) (evaluate fuel expression s').
Proof.
  revert expression.
  apply (Expr_ind'
           (fun e => forall s s', same_lookups s s' ->
                       agree same_triple (evaluate fuel e s) (evaluate fuel e s'))).
  - refine (conj _ (conj _ (conj _ (conj _ (conj _ (conj _ _))))));
      intros; simpl; try solve [agree_tail].
    rewrite <- (H x). destruct (get_value s x) as [[v t] |]; agree_tail.
  - intros e IH. refine (conj _ (conj _ _)).
    + intros s s' Hs. simpl.
      eapply agree_bind; [apply IH, Hs |].
      intros [[v t] s1] [[v' t'] s1'] (<- & <- & Hs1). agree_tail.
    + intros s s' Hs. simpl.
      eapply agree_bind; [apply IH, Hs |].
      intros [[v t] s1] [[v' t'] s1'] (<- & <- & Hs1). agree_tail.
    + intros x s s' Hs. simpl.
      eapply agree_bind; [apply IH, Hs |].
      intros [[v t] s1] [[v' t'] s1'] (<- & <- & Hs1).
      cbv beta iota zeta. rewrite <- (Hs1 x).
      destruct (assign_mismatch t (option_map snd (get_value s1 x))); agree_tail.
      apply agree_ret. simpl. auto using same_lookups_set_value.
  - intros es IH. split; intros s s' Hs; simpl; apply eval_sequence_agree; assumption.
  - intros l r IHl IHr. refine (conj _ (conj _ (conj _ _))); intros s s' Hs; simpl;
      (eapply agree_bind; [apply operands_agree; assumption |]);
      intros [[[lv lt] rv] s2] [[[lv' lt'] rv'] s2'] (<- & <- & <- & Hs2);
      cbv beta iota; agree_tail.
  - intros l r IHl IHr. refine (conj _ _); intros s s' Hs; simpl;
      (eapply agree_bind; [apply operands_agree; assumption |]);
      intros [[[lv lt] rv] s2] [[[lv' lt'] rv'] s2'] (<- & <- & <- & Hs2);
      cbv beta iota; agree_tail.
  - intros l r IHl IHr. refine (conj _ (conj _ (conj _ (conj _ (conj _ _))))); intros s s' Hs; simpl;
      (eapply agree_bind; [apply operands_agree; assumption |]);
      intros [[[lv lt] rv] s2] [[[lv' lt'] rv'] s2'] (<- & <- & <- & Hs2);
      cbv beta iota; agree_tail.
  - intros c e1 e2 IHc IH1 IH2 s s' Hs. simpl.
    eapply agree_bind; [apply IHc, Hs |].
    intros [[cv ct] s1] [[cv' ct'] s1'] (<- & <- & Hs1).
    destruct ct; try apply agree_raise.
    destruct (truthy cv); [apply IH1 | apply IH2]; assumption.
  - intros c b IHc IHb s s' Hs. simpl.
    eapply agree_bind; [apply IHc, Hs |].
    intros [[cv ct] s1] [[cv' ct'] s1'] (<- & <- & Hs1).
    destruct ct; try apply agree_raise.
    apply while_loop_agree; assumption.
Qed.

(** X22.  Evaluation sees the state through [get_value] only.  Two states
    that answer every look-up alike (for instance a chain with shadowed
    bindings and the chain without them, or a [copy] and its original) make
    every expression behave alike: the same lines are printed and the
    outcome is the same, the same error, or the same datum and tag with
    states that again answer every look-up alike. *)
Theorem evaluation_sees_lookups_only fuel e s s' out :
  same_lookups s s' ->
  snd (evaluate fuel e s out) = snd (evaluate fuel e s' out) /\
  match fst (evaluate fuel e s out), fst (evaluate fuel e s' out) with
  | Return (v, t, s1), Return (v', t', s1') =>
      v = v' /\ t = t' /\ same_lookups s1 s1'
  | Raise err, Raise err' => err = err'
  | OutOfFuel, OutOfFuel => True
  | _, _ => False
  end.
Proof.
  intros Hs. pose proof (evaluate_agree fuel e s s' Hs out) as [Ho Hr].
  split; [exact Ho |].
  destruct (fst (evaluate fuel e s out)) as [[[v t] s1] | err |],
           (fst (evaluate fuel e s' out)) as [[[v' t'] s1'] | err' |];
    exact Hr.
Qed.

Local Open Scope string_scope.

(** The counting loop started with [i] bound twice, and with [i] bound
    once. *)
Lemma evaluation_sees_lookups_only_witness :
  snd (evaluate 3 count_loop
         (set_value (set_value EmptyState "i" (PyInt 7) Integer) "i" (PyInt 0) Integer)
         []) =
  snd (evaluate 3 count_loop (set_value EmptyState "i" (PyInt 0) Integer) []) /\
  match fst (evaluate 3 count_loop
               (set_value (set_value EmptyState "i" (PyInt 7) Integer)
                  "i" (PyInt 0) Integer) []),
        fst (evaluate 3 count_loop (set_value EmptyState "i" (PyInt 0) Integer) [])
  with
  | Return (v, t, s1), Return (v', t', s1') =>
      v = v' /\ t = t' /\ same_lookups s1 s1'
  | Raise err, Raise err' => err = err'
  | OutOfFuel, OutOfFuel => True
  | _, _ => False
  end.
Proof.
  apply (evaluation_sees_lookups_only 3 count_loop
           (set_value (set_value EmptyState "i" (PyInt 7) Integer) "i" (PyInt 0) Integer)
           (set_value EmptyState "i" (PyInt 0) Integer) []).
  intros name. unfold set_value. cbn [get_value].
  destruct (String.eqb "i" name); reflexivity.
Defined.

Local Close Scope string_scope.
